(** * eco-goinfra: builders over a cluster client

    A shallow embedding of three source files of the repository:
    - [pkg/ibgu/ibgu.go]            (module [ibgu]),
    - [pkg/sriov-fec/nodeconfig.go] (module [sriovfec]),
    - the SR-IOV policy list helpers, package [sriov] (module [sriov]).

    Go pointers to resource objects are locations of an explicit heap, so
    that sharing between [Definition] and [Object] is visible.  A pointer
    receiver is passed as [option] of the struct it points to ([None] is
    the nil receiver); a method that assigns to a receiver field returns,
    next to its Go results, the receiver's contents after the call.
    Dereferencing nil is a panic, which the monad below records.  Go has
    no dangling pointers; in the model a location beyond the end of the
    heap reads as the zero value and a write to it is lost. *)

From Stdlib Require Import ZArith Lia.
From stdpp Require Import base option strings list gmap.

Set Default Proof Using "Type".
Local Open Scope list_scope.

(** ** Go preliminaries: errors, panics, state, heap *)

Module Go.

(** [k8s.io/apimachinery/pkg/api/errors]: the reason carried by a status
    error.  Only not-found is told apart by the code under study. *)
Inductive StatusReason : Type :=
| StatusReasonNotFound
| StatusReasonOther (reason : string).

(** A non-nil Go [error].  [Errorf format operands] is the value
    [fmt.Errorf(format, operands...)] returns; [StatusError] is what the
    API machinery returns for a failed request.  The nil error is [None]
    of [option error]. *)
Inductive error : Type :=
| Errorf (format : string) (operands : list string)
| StatusError (reason : StatusReason) (message : string).

(** [k8serrors.IsNotFound]. *)
Definition IsNotFound (err : error) : bool :=
  match err with
  | StatusError StatusReasonNotFound _ => true
  | _ => false
  end.

(** The result of running a piece of Go code from a state. *)
Inductive outcome (S A : Type) : Type :=
| Panic
| Done (a : A) (s : S).
Arguments Panic {S A}.
Arguments Done {S A} a s.

Definition M (S A : Type) : Type := S -> outcome S A.

Definition ret {S A : Type} (a : A) : M S A := fun s => Done a s.

Definition bind {S A B : Type} (m : M S A) (k : A -> M S B) : M S B :=
  fun s => match m s with
           | Panic => Panic
           | Done a s' => k a s'
           end.

Definition panic {S A : Type} : M S A := fun _ => Panic.

(** [*p], [p.f] and a method call through an interface value: a panic
    when [p] is nil. *)
Definition deref {S A : Type} (p : option A) : M S A :=
  match p with
  | Some a => ret a
  | None => panic
  end.

(** Heap locations.  A heap of [T] is a list; [heap_new] appends. *)
Abbreviation loc := nat (only parsing).

Definition heap_new {T : Type} (v : T) (h : list T) : loc * list T :=
  (List.length h, h ++ [v]).

End Go.

Export Go.

Notation "x <- m ;; k" := (bind m (fun x => k))
  (at level 100, m at next level, right associativity).

(** ** Package ibgu: the image-based group upgrade builder *)

Module ibgu.

(** *** Resource types

    The fields of [v1alpha1.ImageBasedGroupUpgrade] (and of the types of
    [metav1] and [lcav1] it embeds) that the builder reads or writes, and
    [ResourceVersion] as the part of the metadata that the API server
    owns. *)

Record ObjectMeta : Type := {
  Name : string;
  Namespace : string;
  ResourceVersion : string;
}.

Record SeedImageRef : Type := {
  Image : string;
  Version : string;
}.

Record ConfigMapRef : Type := {
  cm_Name : string;
  cm_Namespace : string;
}.

Record ImageBasedUpgradeSpec : Type := {
  ibu_SeedImageRef : SeedImageRef;
  OADPContent : list ConfigMapRef;
}.

Record LabelSelector : Type := {
  MatchLabels : gmap string string;
}.

Record RolloutStrategy : Type := {
  MaxConcurrency : Z;
  Timeout : Z;
}.

Record PlanItem : Type := {
  Actions : list string;
  plan_RolloutStrategy : RolloutStrategy;
}.

Record ImageBasedGroupUpgradeSpec : Type := {
  IBUSpec : ImageBasedUpgradeSpec;
  ClusterLabelSelectors : list LabelSelector;
  Plan : list PlanItem;
}.

Record ImageBasedGroupUpgrade : Type := {
  Meta : ObjectMeta;
  Spec : ImageBasedGroupUpgradeSpec;
}.

(** [lcav1.ImageBasedUpgradeSpec{}] and [&v1alpha1.ImageBasedGroupUpgrade{}]:
    Go zero values. *)
Definition zeroIBUSpec : ImageBasedUpgradeSpec :=
  {| ibu_SeedImageRef := {| Image := ""; Version := "" |}; OADPContent := [] |}.

Definition zeroIBGU : ImageBasedGroupUpgrade :=
  {| Meta := {| Name := ""; Namespace := ""; ResourceVersion := "" |};
     Spec := {| IBUSpec := zeroIBUSpec; ClusterLabelSelectors := []; Plan := [] |} |}.

#[global] Instance ImageBasedGroupUpgrade_inhabited : Inhabited ImageBasedGroupUpgrade :=
  populate zeroIBGU.

(** Assignments to fields of [builder.Definition.Spec]. *)
Definition set_Spec (f : ImageBasedGroupUpgradeSpec -> ImageBasedGroupUpgradeSpec)
    (obj : ImageBasedGroupUpgrade) : ImageBasedGroupUpgrade :=
  {| Meta := Meta obj; Spec := f (Spec obj) |}.

Definition set_ClusterLabelSelectors (v : list LabelSelector)
    (spec : ImageBasedGroupUpgradeSpec) : ImageBasedGroupUpgradeSpec :=
  {| IBUSpec := IBUSpec spec; ClusterLabelSelectors := v; Plan := Plan spec |}.

Definition set_IBUSpec (v : ImageBasedUpgradeSpec)
    (spec : ImageBasedGroupUpgradeSpec) : ImageBasedGroupUpgradeSpec :=
  {| IBUSpec := v; ClusterLabelSelectors := ClusterLabelSelectors spec; Plan := Plan spec |}.

Definition set_OADPContent (v : list ConfigMapRef)
    (spec : ImageBasedGroupUpgradeSpec) : ImageBasedGroupUpgradeSpec :=
  {| IBUSpec := {| ibu_SeedImageRef := ibu_SeedImageRef (IBUSpec spec); OADPContent := v |};
     ClusterLabelSelectors := ClusterLabelSelectors spec;
     Plan := Plan spec |}.

Definition set_Plan (v : list PlanItem)
    (spec : ImageBasedGroupUpgradeSpec) : ImageBasedGroupUpgradeSpec :=
  {| IBUSpec := IBUSpec spec; ClusterLabelSelectors := ClusterLabelSelectors spec; Plan := v |}.

(** [goclient.ObjectKey]. *)
Record ObjectKey : Type := {
  key_Name : string;
  key_Namespace : string;
}.

Section Builder.

(** The cluster behind the client: whatever state the API server and the
    transport have. *)
Context {W : Type}.

(** [msg.UndefinedCrdObjectErrString] of package [msg], which is not among
    the source files at hand: taken as a parameter. *)
Variable UndefinedCrdObjectErrString : string -> string.

(** [goclient.Client], the three methods the builder calls.  [Get] and
    [Create] receive a pointer and may write through it: they return the
    contents they leave there.  [Delete] receives [builder.Object], which
    the type allows to be nil, and is taken to leave the object as it
    is. *)
Record Client : Type := {
  client_Get :
    ObjectKey -> ImageBasedGroupUpgrade -> W -> (ImageBasedGroupUpgrade * option error) * W;
  client_Create :
    ImageBasedGroupUpgrade -> W -> (ImageBasedGroupUpgrade * option error) * W;
  client_Delete :
    option ImageBasedGroupUpgrade -> W -> option error * W;
}.

(** [clients.Settings], as far as [NewIbguBuilder] uses it: the embedded
    [goclient.Client] (an interface value, possibly nil) and the result of
    [AttachScheme(v1alpha1.AddToScheme)]. *)
Record Settings : Type := {
  settings_Client : option Client;
  AttachScheme : option error;
}.

(** A request that reached the client, with what came back. *)
Inductive Request : Type :=
| ReqGet (key : ObjectKey) (into : loc) (got : ImageBasedGroupUpgrade) (err : option error)
| ReqCreate (obj : loc) (sent after : ImageBasedGroupUpgrade) (err : option error)
| ReqDelete (obj : option loc) (err : option error).

Record State : Type := {
  heap : list ImageBasedGroupUpgrade;
  world : W;
  requests : list Request;
}.

Record IbguBuilder : Type := {
  Definition_ : option loc;
  Object : option loc;
  apiClient : option Client;
  errorMsg : string;
}.

Definition set_errorMsg (v : string) (b : IbguBuilder) : IbguBuilder :=
  {| Definition_ := Definition_ b; Object := Object b; apiClient := apiClient b; errorMsg := v |}.

Definition set_Object (v : option loc) (b : IbguBuilder) : IbguBuilder :=
  {| Definition_ := Definition_ b; Object := v; apiClient := apiClient b; errorMsg := errorMsg b |}.

(** *** Heap access *)

Definition new (v : ImageBasedGroupUpgrade) : M State loc :=
  fun s => let (l, h) := heap_new v (heap s) in
           Done l {| heap := h; world := world s; requests := requests s |}.

Definition load (l : loc) : M State ImageBasedGroupUpgrade :=
  fun s => Done (heap s !!! l) s.

Definition modify (l : loc) (f : ImageBasedGroupUpgrade -> ImageBasedGroupUpgrade) : M State unit :=
  fun s => Done tt {| heap := <[l := f (heap s !!! l)]> (heap s);
                      world := world s; requests := requests s |}.

(** *** Calls through [builder.apiClient]; each one is logged. *)

Definition call_Get (c : Client) (key : ObjectKey) (into : loc) : M State (option error) :=
  fun s => let '(got, err, w) := client_Get c key (heap s !!! into) (world s) in
           Done err {| heap := <[into := got]> (heap s);
                       world := w;
                       requests := requests s ++ [ReqGet key into got err] |}.

Definition call_Create (c : Client) (obj : loc) : M State (option error) :=
  fun s => let sent := heap s !!! obj in
           let '(after, err, w) := client_Create c sent (world s) in
           Done err {| heap := <[obj := after]> (heap s);
                       world := w;
                       requests := requests s ++ [ReqCreate obj sent after err] |}.

Definition call_Delete (c : Client) (obj : option loc) : M State (option error) :=
  fun s => let '(err, w) := client_Delete c ((fun l => heap s !!! l) <$> obj) (world s) in
           Done err {| heap := heap s;
                       world := w;
                       requests := requests s ++ [ReqDelete obj err] |}.

(** *** ibgu.go *)

(** [validate] (ibgu.go, 317-345). *)
Definition validate (builder : option IbguBuilder) : bool * option error :=
  let resourceCRD := "ibgu" in
  match builder with
  | None => (false, Some (Errorf "error: received nil %s builder" [resourceCRD]))
  | Some b =>
      match Definition_ b with
      | None => (false, Some (Errorf (UndefinedCrdObjectErrString resourceCRD) []))
      | Some _ =>
          match apiClient b with
          | None => (false, Some (Errorf "%s builder cannot have nil apiClient" [resourceCRD]))
          | Some _ =>
              if negb (String.eqb (errorMsg b) "")
              then (false, Some (Errorf (errorMsg b) []))
              else (true, None)
          end
      end
  end.

(** [NewIbguBuilder] (ibgu.go, 31-82). *)
Definition NewIbguBuilder (apiClient : option Settings) (name nsname : string)
    : M State (option IbguBuilder) :=
  match apiClient with
  | None => ret None
  | Some settings =>
      match AttachScheme settings with
      | Some _ => ret None
      | None =>
          d <- new {| Meta := {| Name := name; Namespace := nsname; ResourceVersion := "" |};
                      Spec := {| IBUSpec := zeroIBUSpec;
                                 ClusterLabelSelectors := [];
                                 Plan := [] |} |} ;;
          let builder := {| apiClient := settings_Client settings;
                            Definition_ := Some d;
                            Object := None;
                            errorMsg := "" |} in
          if String.eqb name "" then
            ret (Some (set_errorMsg "ibgu 'name' cannot be empty" builder))
          else if String.eqb nsname "" then
            ret (Some (set_errorMsg "ibgu 'nsname' cannot be empty" builder))
          else
            ret (Some builder)
      end
  end.

(** [WithClusterLabelSelectors] (ibgu.go, 85-109). *)
Definition WithClusterLabelSelectors (builder : option IbguBuilder)
    (labels : gmap string string) : M State (option IbguBuilder) :=
  if negb (validate builder).1 then ret builder else
  if Nat.eqb (size labels) 0 then
    b <- deref builder ;;
    ret (Some (set_errorMsg "can not apply empty cluster label selectors to the IBGU" b))
  else
    let labelSelectors := [ {| MatchLabels := labels |} ] in
    b <- deref builder ;;
    d <- deref (Definition_ b) ;;
    _ <- modify d (set_Spec (set_ClusterLabelSelectors labelSelectors)) ;;
    ret builder.

(** [WithSeedImageRef] (ibgu.go, 112-145). *)
Definition WithSeedImageRef (builder : option IbguBuilder)
    (seedImage seedVersion : string) : M State (option IbguBuilder) :=
  if negb (validate builder).1 then ret builder else
  if String.eqb seedImage "" then
    b <- deref builder ;;
    ret (Some (set_errorMsg "seedImage cannot be empty" b))
  else if String.eqb seedVersion "" then
    b <- deref builder ;;
    ret (Some (set_errorMsg "seedVersion cannot be empty" b))
  else
    let ibuSpec := {| ibu_SeedImageRef := {| Image := seedImage; Version := seedVersion |};
                      OADPContent := [] |} in
    b <- deref builder ;;
    d <- deref (Definition_ b) ;;
    _ <- modify d (set_Spec (set_IBUSpec ibuSpec)) ;;
    ret builder.

(** [WithOadpContent] (ibgu.go, 148-179). *)
Definition WithOadpContent (builder : option IbguBuilder)
    (name namespace : string) : M State (option IbguBuilder) :=
  if negb (validate builder).1 then ret builder else
  if String.eqb name "" then
    b <- deref builder ;;
    ret (Some (set_errorMsg "oadp content name cannot be empty" b))
  else if String.eqb namespace "" then
    b <- deref builder ;;
    ret (Some (set_errorMsg "oadp content namespace cannot be empty" b))
  else
    let oadpContent := {| cm_Name := name; cm_Namespace := namespace |} in
    b <- deref builder ;;
    d <- deref (Definition_ b) ;;
    _ <- modify d (set_Spec (fun spec =>
           set_OADPContent (OADPContent (IBUSpec spec) ++ [oadpContent]) spec)) ;;
    ret builder.

(** [WithPlan] (ibgu.go, 182-229). *)
Definition WithPlan (builder : option IbguBuilder)
    (actions : list string) (maxConcurrency timeout : Z) : M State (option IbguBuilder) :=
  if negb (validate builder).1 then ret builder else
  if Nat.eqb (List.length actions) 0 then
    b <- deref builder ;;
    ret (Some (set_errorMsg "plan actions cannot be empty" b))
  else if (maxConcurrency <=? 0)%Z then
    b <- deref builder ;;
    ret (Some (set_errorMsg "maxConcurrency must be greater than 0" b))
  else if (timeout <=? 0)%Z then
    b <- deref builder ;;
    ret (Some (set_errorMsg "timeout must be greater than 0" b))
  else
    let plan := {| Actions := actions;
                   plan_RolloutStrategy := {| MaxConcurrency := maxConcurrency;
                                              Timeout := timeout |} |} in
    b <- deref builder ;;
    d <- deref (Definition_ b) ;;
    _ <- modify d (set_Spec (fun spec => set_Plan (Plan spec ++ [plan]) spec)) ;;
    ret builder.

(** [Get] (ibgu.go, 232-252). *)
Definition Get (builder : option IbguBuilder) : M State (option loc * option error) :=
  let (valid, err) := validate builder in
  if negb valid then ret (None, err) else
  b <- deref builder ;;
  d <- deref (Definition_ b) ;;
  definition <- load d ;;
  imagebasedgroupupgrade <- new zeroIBGU ;;
  c <- deref (apiClient b) ;;
  err <- call_Get c {| key_Name := Name (Meta definition);
                       key_Namespace := Namespace (Meta definition) |}
                  imagebasedgroupupgrade ;;
  match err with
  | Some _ => ret (None, err)
  | None => ret (Some imagebasedgroupupgrade, err)
  end.

(** [Exists] (ibgu.go, 255-267): the result and the receiver after
    [builder.Object, err = builder.Get()]. *)
Definition Exists (builder : option IbguBuilder) : M State (bool * option IbguBuilder) :=
  if negb (validate builder).1 then ret (false, builder) else
  r <- Get builder ;;
  b <- deref builder ;;
  let builder := Some (set_Object r.1 b) in
  let err := r.2 in
  ret (match err with
       | None => true
       | Some e => negb (IsNotFound e)
       end, builder).

(** [Create] (ibgu.go, 270-287): the returned builder pointer is the
    receiver, so one component stands for both. *)
Definition Create (builder : option IbguBuilder) : M State (option IbguBuilder * option error) :=
  let (valid, err) := validate builder in
  if negb valid then ret (builder, err) else
  r <- Exists builder ;;
  let builder := r.2 in
  if negb r.1 then
    b <- deref builder ;;
    c <- deref (apiClient b) ;;
    d <- deref (Definition_ b) ;;
    err <- call_Create c d ;;
    match err with
    | None => ret (Some (set_Object (Definition_ b) b), err)
    | Some _ => ret (builder, err)
    end
  else
    ret (builder, None).

(** [Delete] (ibgu.go, 290-313): the error and the receiver afterwards. *)
Definition Delete (builder : option IbguBuilder) : M State (option error * option IbguBuilder) :=
  let (valid, err) := validate builder in
  if negb valid then ret (err, builder) else
  r <- Exists builder ;;
  let builder := r.2 in
  if negb r.1 then
    b <- deref builder ;;
    ret (None, Some (set_Object None b))
  else
    b <- deref builder ;;
    c <- deref (apiClient b) ;;
    err <- call_Delete c (Object b) ;;
    match err with
    | Some _ => ret (err, builder)
    | None => ret (None, Some (set_Object None b))
    end.

(** *** Facts about the model *)

Lemma validate_true (builder : option IbguBuilder) :
  (validate builder).1 = true ->
  exists b d c,
    builder = Some b /\ Definition_ b = Some d /\ apiClient b = Some c /\
    errorMsg b = "" /\ validate builder = (true, None).
Proof.
  unfold validate. destruct builder as [b|]; [|discriminate].
  destruct (Definition_ b) as [d|] eqn:Hd; [|discriminate].
  destruct (apiClient b) as [c|] eqn:Hc; [|discriminate].
  destruct (String.eqb (errorMsg b) "") eqn:He; simpl; [|discriminate].
  intros _. apply String.eqb_eq in He. exists b, d, c. by rewrite Hd, Hc.
Qed.

Lemma validate_false_err (builder : option IbguBuilder) :
  (validate builder).1 = false -> exists e, (validate builder).2 = Some e.
Proof.
  unfold validate. destruct builder as [b|]; [|by eexists].
  destruct (Definition_ b); [|by eexists].
  destruct (apiClient b); [|by eexists].
  destruct (String.eqb (errorMsg b) ""); simpl; [discriminate|by eexists].
Qed.

Lemma validate_ok (b : IbguBuilder) (d : loc) (c : Client) :
  Definition_ b = Some d -> apiClient b = Some c -> errorMsg b = "" ->
  validate (Some b) = (true, None).
Proof. intros Hd Hc He. unfold validate. by rewrite Hd, Hc, He. Qed.

Lemma insert_fresh (h : list ImageBasedGroupUpgrade) (v v' : ImageBasedGroupUpgrade) :
  <[List.length h := v']> (h ++ [v]) = h ++ [v'].
Proof.
  rewrite insert_app_r_alt by lia. by rewrite Nat.sub_diag.
Qed.

Lemma lookup_fresh (h : list ImageBasedGroupUpgrade) (v : ImageBasedGroupUpgrade) :
  (h ++ [v]) !!! List.length h = v.
Proof.
  apply list_lookup_total_correct. rewrite lookup_app_r by lia.
  by rewrite Nat.sub_diag.
Qed.

Lemma lookup_old (h : list ImageBasedGroupUpgrade) (v : ImageBasedGroupUpgrade) (l : loc) :
  l < List.length h -> (h ++ [v]) !!! l = h !!! l.
Proof. intros Hl. by apply lookup_total_app_l. Qed.

(** The key [Get] looks up: name and namespace of the definition. *)
Definition key_of (obj : ImageBasedGroupUpgrade) : ObjectKey :=
  {| key_Name := Name (Meta obj); key_Namespace := Namespace (Meta obj) |}.

(** What [Get] does on a builder that passes validation: one request,
    into a fresh object. *)
Lemma Get_valid (b : IbguBuilder) (d : loc) (c : Client) (s : State) :
  Definition_ b = Some d -> apiClient b = Some c -> errorMsg b = "" ->
  Get (Some b) s =
    let key := key_of (heap s !!! d) in
    let fresh := List.length (heap s) in
    let '(got, err, w) := client_Get c key zeroIBGU (world s) in
    Done (match err with Some _ => None | None => Some fresh end, err)
         {| heap := heap s ++ [got];
            world := w;
            requests := requests s ++ [ReqGet key fresh got err] |}.
Proof.
  intros Hd Hc He. unfold Get. rewrite (validate_ok b d c Hd Hc He). simpl.
  unfold bind, deref, ret, load, new, call_Get, heap_new. rewrite Hd, Hc. simpl.
  rewrite lookup_fresh. unfold key_of.
  destruct (client_Get c _ zeroIBGU (world s)) as [[got [e|]] w];
    simpl; rewrite insert_fresh; reflexivity.
Qed.

(** [Exists] on a builder that passes validation: the request of [Get],
    and [Object] overwritten with what [Get] returned. *)
Lemma Exists_valid (b : IbguBuilder) (d : loc) (c : Client) (s : State) :
  Definition_ b = Some d -> apiClient b = Some c -> errorMsg b = "" ->
  Exists (Some b) s =
    let key := key_of (heap s !!! d) in
    let fresh := List.length (heap s) in
    let '(got, err, w) := client_Get c key zeroIBGU (world s) in
    Done (match err with None => true | Some e => negb (IsNotFound e) end,
          Some (set_Object (match err with Some _ => None | None => Some fresh end) b))
         {| heap := heap s ++ [got];
            world := w;
            requests := requests s ++ [ReqGet key fresh got err] |}.
Proof.
  intros Hd Hc He. unfold Exists. rewrite (validate_ok b d c Hd Hc He). simpl.
  unfold bind at 1. rewrite (Get_valid b d c s Hd Hc He). simpl.
  destruct (client_Get c _ zeroIBGU (world s)) as [[got [e|]] w]; reflexivity.
Qed.

(** *** The claims about [ibgu.go] *)

(** C1.  [Exists] on a builder that passes validation runs [Get], stores
    the pointer [Get] returned in [Object] (the fetched object when the
    error is nil, nil otherwise) and returns true exactly when the error is
    nil or is not a not-found error; on a builder that fails validation it
    returns false and touches nothing. *)
Theorem Exists_spec (builder : option IbguBuilder) (s : State) :
  match validate builder with
  | (true, _) =>
      exists b obj err s',
        builder = Some b /\
        Get builder s = Done (obj, err) s' /\
        (err = None -> is_Some obj) /\
        (err <> None -> obj = None) /\
        Exists builder s =
          Done (match err with None => true | Some e => negb (IsNotFound e) end,
                Some (set_Object obj b)) s'
  | (false, _) => Exists builder s = Done (false, builder) s
  end.
Proof.
  destruct (validate builder) as [valid verr] eqn:Hv. destruct valid.
  - destruct (validate_true builder) as (b & d & c & -> & Hd & Hc & He & _).
    { by rewrite Hv. }
    rewrite (Get_valid b d c s Hd Hc He), (Exists_valid b d c s Hd Hc He). simpl.
    destruct (client_Get c _ zeroIBGU (world s)) as [[got [e|]] w].
    + eexists b, None, (Some e), _. repeat split; try done.
    + eexists b, (Some _), None, _. repeat split; try done.
  - unfold Exists. by rewrite Hv.
Qed.

(** C10.  [NewIbguBuilder] returns nil exactly when the client settings
    are nil or attaching the scheme fails; every builder it does return
    has its deferred-error slot set exactly when the name or the namespace
    is empty. *)
Theorem NewIbguBuilder_nil_or_deferred
    (apiClient : option Settings) (name nsname : string) (s : State) :
  exists r s',
    NewIbguBuilder apiClient name nsname s = Done r s' /\
    (r = None <->
       apiClient = None \/
       exists settings e, apiClient = Some settings /\ AttachScheme settings = Some e) /\
    (forall b, r = Some b -> (errorMsg b <> "" <-> name = "" \/ nsname = "")).
Proof.
  unfold NewIbguBuilder. destruct apiClient as [settings|].
  - destruct (AttachScheme settings) as [e|] eqn:Ha.
    + exists None, s. split; [done|]. split; [|done].
      split; [|done]. intros _. right. by exists settings, e.
    + unfold bind, new, heap_new, ret. simpl.
      destruct (String.eqb name "") eqn:Hn;
        [|destruct (String.eqb nsname "") eqn:Hns];
        eexists (Some _), _; (split; [reflexivity|]);
        (split; [split; [done|]; intros [|(? & ? & ? & ?)]; [done|congruence]|]);
        intros b [= <-]; simpl;
        rewrite ?String.eqb_eq, ?String.eqb_neq in *; split; intros; try done; eauto.
      destruct H; done.
  - exists None, s. split; [done|]. split; [|done]. split; [|done]. by left.
Qed.

(** C2 (as amended).  On a builder whose deferred-error slot is set,
    validation fails; every configuration call returns the builder as it
    is and every terminal call returns the error of validation, all of
    them leaving heap, cluster and request log as they were.  That error
    is the one built from the slot whenever the definition and the client
    are non-nil, which [validate] checks first. *)
Theorem deferred_error_short_circuits (b : IbguBuilder) (s : State) :
  errorMsg b <> "" ->
  exists err,
    validate (Some b) = (false, Some err) /\
    (Definition_ b <> None -> apiClient b <> None -> err = Errorf (errorMsg b) []) /\
    (forall labels, WithClusterLabelSelectors (Some b) labels s = Done (Some b) s) /\
    (forall seedImage seedVersion,
       WithSeedImageRef (Some b) seedImage seedVersion s = Done (Some b) s) /\
    (forall name namespace, WithOadpContent (Some b) name namespace s = Done (Some b) s) /\
    (forall actions maxConcurrency timeout,
       WithPlan (Some b) actions maxConcurrency timeout s = Done (Some b) s) /\
    Get (Some b) s = Done (None, Some err) s /\
    Exists (Some b) s = Done (false, Some b) s /\
    Create (Some b) s = Done (Some b, Some err) s /\
    Delete (Some b) s = Done (Some err, Some b) s.
Proof.
  intros Hslot. apply String.eqb_neq in Hslot.
  assert (exists err, validate (Some b) = (false, Some err) /\
            (Definition_ b <> None -> apiClient b <> None ->
             err = Errorf (errorMsg b) [])) as (err & Hv & Herr).
  { unfold validate. destruct (Definition_ b); [|by eexists].
    destruct (apiClient b); [|by eexists]. rewrite Hslot. by eexists. }
  exists err. split; [done|]. split; [done|].
  unfold WithClusterLabelSelectors, WithSeedImageRef, WithOadpContent, WithPlan,
    Get, Exists, Create, Delete.
  rewrite Hv. simpl. by repeat split.
Qed.

(** C3.  On a cluster that answers the lookup of the definition with
    not-found, [Create] sends one create request carrying the definition
    and, when that succeeds, makes [Object] the definition pointer; when
    the cluster then finds the resource, a second [Create] on the same
    builder sends the lookup only, no create request, and returns the
    builder with a nil error. *)
Theorem Create_idempotent_by_skip
    (b : IbguBuilder) (d : loc) (c : Client) (s : State)
    (got1 after got2 : ImageBasedGroupUpgrade) (e1 : error) (w1 w2 w3 : W) :
  Definition_ b = Some d -> apiClient b = Some c -> errorMsg b = "" ->
  d < List.length (heap s) ->
  client_Get c (key_of (heap s !!! d)) zeroIBGU (world s) = (got1, Some e1, w1) ->
  IsNotFound e1 = true ->
  client_Create c (heap s !!! d) w1 = (after, None, w2) ->
  client_Get c (key_of after) zeroIBGU w2 = (got2, None, w3) ->
  exists s1 s2,
    Create (Some b) s = Done (Some (set_Object (Some d) b), None) s1 /\
    requests s1 =
      requests s ++ [ReqGet (key_of (heap s !!! d)) (List.length (heap s)) got1 (Some e1);
                     ReqCreate d (heap s !!! d) after None] /\
    heap s1 !!! d = after /\
    Create (Some (set_Object (Some d) b)) s1 =
      Done (Some (set_Object (Some (S (List.length (heap s)))) b), None) s2 /\
    requests s2 = requests s1 ++ [ReqGet (key_of after) (S (List.length (heap s))) got2 None].
Proof.
  intros Hd Hc He Hlt Hget1 Hnf Hcreate Hget2.
  assert (Hold : (heap s ++ [got1]) !!! d = heap s !!! d) by by apply lookup_old.
  assert (Hlen : d < List.length (heap s ++ [got1])).
  { rewrite length_app. simpl. lia. }
  eexists _, _. split; [|split; [|split; [|split]]].
  - unfold Create. rewrite (validate_ok b d c Hd Hc He). simpl.
    unfold bind at 1. rewrite (Exists_valid b d c s Hd Hc He). simpl.
    rewrite Hget1, Hnf. simpl. unfold bind, deref, ret, call_Create. simpl.
    rewrite Hd, Hc. simpl. rewrite Hold, Hcreate. reflexivity.
  - simpl. by rewrite <- app_assoc.
  - simpl. apply list_lookup_total_insert_eq. done.
  - unfold Create. rewrite (validate_ok (set_Object (Some d) b) d c); [|done..].
    simpl. unfold bind at 1.
    rewrite (Exists_valid (set_Object (Some d) b) d c); [|done..]. simpl.
    rewrite list_lookup_total_insert_eq by done. rewrite Hget2. simpl.
    rewrite length_insert, length_app. simpl.
    replace (List.length (heap s) + 1) with (S (List.length (heap s))) by lia.
    reflexivity.
  - reflexivity.
Qed.

(** C4 (as amended).  [Delete] on a builder that passes validation first
    looks the resource up.  Not found: no delete request, [Object] nil,
    nil error.  Found: one delete request against the object just
    fetched; on success [Object] is nil and the error nil; on failure the
    error of the request is returned and [Object] stays what the lookup
    made it, the object just fetched. *)
Theorem Delete_spec
    (b : IbguBuilder) (d : loc) (c : Client) (s : State)
    (got : ImageBasedGroupUpgrade) (gerr : option error) (w1 : W) :
  Definition_ b = Some d -> apiClient b = Some c -> errorMsg b = "" ->
  client_Get c (key_of (heap s !!! d)) zeroIBGU (world s) = (got, gerr, w1) ->
  let fresh := List.length (heap s) in
  let s1 := {| heap := heap s ++ [got];
               world := w1;
               requests := requests s ++ [ReqGet (key_of (heap s !!! d)) fresh got gerr] |} in
  match gerr with
  | Some e =>
      IsNotFound e = true ->
      Delete (Some b) s = Done (None, Some (set_Object None b)) s1
  | None =>
      let '(derr, w2) := client_Delete c (Some got) w1 in
      Delete (Some b) s =
        Done (derr,
              Some (set_Object (match derr with None => None | Some _ => Some fresh end) b))
             {| heap := heap s1;
                world := w2;
                requests := requests s1 ++ [ReqDelete (Some fresh) derr] |}
  end.
Proof.
  intros Hd Hc He Hget. simpl.
  assert (HD : Delete (Some b) s =
                 bind (Exists (Some b)) (fun r =>
                   let builder := r.2 in
                   if negb r.1 then
                     b <- deref builder ;; ret (None, Some (set_Object None b))
                   else
                     b <- deref builder ;;
                     c <- deref (apiClient b) ;;
                     err <- call_Delete c (Object b) ;;
                     match err with
                     | Some _ => ret (err, builder)
                     | None => ret (None, Some (set_Object None b))
                     end) s).
  { unfold Delete. by rewrite (validate_ok b d c Hd Hc He). }
  unfold bind at 1 in HD. rewrite (Exists_valid b d c s Hd Hc He) in HD.
  simpl in HD. rewrite Hget in HD.
  destruct gerr as [e|]; simpl in HD.
  - intros Hnf. rewrite Hnf in HD. exact HD.
  - unfold bind, deref, ret, call_Delete in HD. simpl in HD. rewrite Hc in HD.
    simpl in HD. rewrite lookup_fresh in HD.
    destruct (client_Delete c (Some got) w1) as [[e|] w2]; exact HD.
Qed.

(** C8.  When the lookup of a builder that passes validation fails with
    an error that is not not-found, [Delete] goes on to the delete request
    and hands the client a nil object. *)
Theorem Delete_passes_nil_Object
    (b : IbguBuilder) (d : loc) (c : Client) (s : State)
    (got : ImageBasedGroupUpgrade) (e : error) (w1 : W) :
  Definition_ b = Some d -> apiClient b = Some c -> errorMsg b = "" ->
  client_Get c (key_of (heap s !!! d)) zeroIBGU (world s) = (got, Some e, w1) ->
  IsNotFound e = false ->
  exists r s' derr w2,
    Delete (Some b) s = Done r s' /\
    client_Delete c None w1 = (derr, w2) /\
    r.1 = derr /\
    world s' = w2 /\
    requests s' =
      requests s ++ [ReqGet (key_of (heap s !!! d)) (List.length (heap s)) got (Some e);
                     ReqDelete None derr].
Proof.
  intros Hd Hc He Hget Hnf.
  destruct (client_Delete c None w1) as [derr w2] eqn:Hdel.
  unfold Delete. rewrite (validate_ok b d c Hd Hc He). simpl.
  unfold bind at 1. rewrite (Exists_valid b d c s Hd Hc He). simpl.
  rewrite Hget, Hnf. simpl. unfold bind, deref, ret, call_Delete. simpl.
  rewrite Hc. simpl. rewrite Hdel.
  destruct derr as [de|]; eexists _, _, _, w2;
    (split; [reflexivity|]); simpl; by rewrite <- app_assoc.
Qed.

(** *** The lifetime of a builder *)

(** The operations of a builder, to speak about all of them at once. *)
Inductive Op : Type :=
| OpWithClusterLabelSelectors (labels : gmap string string)
| OpWithSeedImageRef (seedImage seedVersion : string)
| OpWithOadpContent (name namespace : string)
| OpWithPlan (actions : list string) (maxConcurrency timeout : Z)
| OpGet
| OpExists
| OpCreate
| OpDelete.

(** The receiver after one operation. *)
Definition run (op : Op) (builder : option IbguBuilder) : M State (option IbguBuilder) :=
  match op with
  | OpWithClusterLabelSelectors labels => WithClusterLabelSelectors builder labels
  | OpWithSeedImageRef seedImage seedVersion => WithSeedImageRef builder seedImage seedVersion
  | OpWithOadpContent name namespace => WithOadpContent builder name namespace
  | OpWithPlan actions maxConcurrency timeout => WithPlan builder actions maxConcurrency timeout
  | OpGet => _ <- Get builder ;; ret builder
  | OpExists => r <- Exists builder ;; ret r.2
  | OpCreate => r <- Create builder ;; ret r.1
  | OpDelete => r <- Delete builder ;; ret r.2
  end.

Fixpoint run_all (ops : list Op) (builder : option IbguBuilder)
    : M State (option IbguBuilder) :=
  match ops with
  | [] => ret builder
  | op :: ops => builder <- run op builder ;; run_all ops builder
  end.




(** The requests an operation has added to the log. *)
Definition added (s s' : State) : list Request :=
  drop (List.length (requests s)) (requests s').

(** The operations whose requests the builder keeps the result of: all
    but a direct [Get], which hands what it read to the caller and leaves
    [Object] alone. *)
Definition keeps (op : Op) : bool :=
  match op with
  | OpGet => false
  | _ => true
  end.

(** The requests that [Exists], [Create] and [Delete] made in a run of
    operations, in order. *)
Fixpoint kept_requests (ops : list Op) (builder : option IbguBuilder) (s : State)
    : list Request :=
  match ops with
  | [] => []
  | op :: ops =>
      match run op builder s with
      | Done builder' s' =>
          (if keeps op then added s s' else []) ++ kept_requests ops builder' s'
      | Panic => []
      end
  end.




(** [Create] on a builder that passes validation. *)
Lemma Create_valid (b : IbguBuilder) (d : loc) (c : Client) (s : State) :
  Definition_ b = Some d -> apiClient b = Some c -> errorMsg b = "" ->
  Create (Some b) s =
    let key := key_of (heap s !!! d) in
    let fresh := List.length (heap s) in
    let '(got, gerr, w1) := client_Get c key zeroIBGU (world s) in
    let s1 := {| heap := heap s ++ [got];
                 world := w1;
                 requests := requests s ++ [ReqGet key fresh got gerr] |} in
    match gerr with
    | None => Done (Some (set_Object (Some fresh) b), None) s1
    | Some e =>
        if IsNotFound e then
          let sent := heap s1 !!! d in
          let '(after, cerr, w2) := client_Create c sent w1 in
          Done (Some (set_Object (match cerr with None => Some d | Some _ => None end) b), cerr)
               {| heap := <[d := after]> (heap s1);
                  world := w2;
                  requests := requests s1 ++ [ReqCreate d sent after cerr] |}
        else Done (Some (set_Object None b), None) s1
    end.
Proof.
  intros Hd Hc He. unfold Create. rewrite (validate_ok b d c Hd Hc He). simpl.
  unfold bind at 1. rewrite (Exists_valid b d c s Hd Hc He). simpl.
  destruct (client_Get c _ zeroIBGU (world s)) as [[got [e|]] w1]; simpl; [|done].
  destruct (IsNotFound e); simpl; [|done].
  unfold bind, deref, ret, call_Create. simpl. rewrite Hd, Hc. simpl.
  destruct (client_Create c _ w1) as [[after [ce|]] w2]; reflexivity.
Qed.

(** [Delete] on a builder that passes validation. *)
Lemma Delete_valid (b : IbguBuilder) (d : loc) (c : Client) (s : State) :
  Definition_ b = Some d -> apiClient b = Some c -> errorMsg b = "" ->
  Delete (Some b) s =
    let key := key_of (heap s !!! d) in
    let fresh := List.length (heap s) in
    let '(got, gerr, w1) := client_Get c key zeroIBGU (world s) in
    let s1 := {| heap := heap s ++ [got];
                 world := w1;
                 requests := requests s ++ [ReqGet key fresh got gerr] |} in
    let Object1 := match gerr with Some _ => None | None => Some fresh end in
    if match gerr with None => true | Some e => negb (IsNotFound e) end then
      let '(derr, w2) := client_Delete c ((fun l => heap s1 !!! l) <$> Object1) w1 in
      Done (derr, Some (set_Object (match derr with None => None | Some _ => Object1 end) b))
           {| heap := heap s1;
              world := w2;
              requests := requests s1 ++ [ReqDelete Object1 derr] |}
    else Done (None, Some (set_Object None b)) s1.
Proof.
  intros Hd Hc He. unfold Delete. rewrite (validate_ok b d c Hd Hc He). simpl.
  unfold bind at 1. rewrite (Exists_valid b d c s Hd Hc He). simpl.
  destruct (client_Get c _ zeroIBGU (world s)) as [[got gerr] w1]; simpl.
  destruct (match gerr with None => true | Some e => negb (IsNotFound e) end); simpl; [|done].
  unfold bind, deref, ret, call_Delete. simpl. rewrite Hc. simpl.
  destruct (client_Delete c _ w1) as [[de|] w2]; reflexivity.
Qed.

Lemma added_refl (s : State) : added s s = [].
Proof. unfold added. by rewrite drop_all. Qed.








Local Ltac log_added :=
  unfold added; cbn [requests]; rewrite <- ?app_assoc; rewrite drop_app_length; cbn [app].


(** On a builder that fails validation no operation does anything. *)
Lemma run_invalid (op : Op) (builder : option IbguBuilder) (s : State) :
  (validate builder).1 = false -> run op builder s = Done builder s.
Proof.
  intros Hv. destruct (validate builder) as [valid err] eqn:Hvalid.
  simpl in Hv. subst valid.
  destruct op; simpl;
    unfold WithClusterLabelSelectors, WithSeedImageRef, WithOadpContent, WithPlan,
      Get, Exists, Create, Delete, bind, ret; by rewrite Hvalid.
Qed.

(** Once the slot of an [IbguBuilder] is set, no operation replaces it:
    the builder stays as it is. *)
Lemma errorMsg_stays (op : Op) (b : IbguBuilder) (s : State) :
  errorMsg b <> "" -> run op (Some b) s = Done (Some b) s.
Proof.
  intros Hslot. apply run_invalid. apply String.eqb_neq in Hslot.
  unfold validate. destruct (Definition_ b); [|done].
  destruct (apiClient b); [|done]. by rewrite Hslot.
Qed.





(** *** What the operations do and never do *)

(** The configuration calls among the operations. *)
Definition is_config (op : Op) : bool :=
  match op with
  | OpGet | OpExists | OpCreate | OpDelete => false
  | _ => true
  end.

(** The argument checks of a configuration call, all passed. *)
Definition config_args_ok (op : Op) : bool :=
  match op with
  | OpWithClusterLabelSelectors labels => negb (size labels =? 0)
  | OpWithSeedImageRef seedImage seedVersion =>
      negb (String.eqb seedImage "") && negb (String.eqb seedVersion "")
  | OpWithOadpContent name namespace =>
      negb (String.eqb name "") && negb (String.eqb namespace "")
  | OpWithPlan actions maxConcurrency timeout =>
      negb (List.length actions =? 0) && negb (maxConcurrency <=? 0)%Z
        && negb (timeout <=? 0)%Z
  | _ => true
  end.

(** The message of the first argument check that a configuration call
    fails. *)
Definition config_message (op : Op) : string :=
  match op with
  | OpWithClusterLabelSelectors _ =>
      "can not apply empty cluster label selectors to the IBGU"
  | OpWithSeedImageRef seedImage _ =>
      if String.eqb seedImage "" then "seedImage cannot be empty"
      else "seedVersion cannot be empty"
  | OpWithOadpContent name _ =>
      if String.eqb name "" then "oadp content name cannot be empty"
      else "oadp content namespace cannot be empty"
  | OpWithPlan actions maxConcurrency _ =>
      if List.length actions =? 0 then "plan actions cannot be empty"
      else if (maxConcurrency <=? 0)%Z then "maxConcurrency must be greater than 0"
      else "timeout must be greater than 0"
  | _ => ""
  end.

(** What a configuration call whose arguments pass writes through the
    definition pointer. *)
Definition config_effect (op : Op) (obj : ImageBasedGroupUpgrade) : ImageBasedGroupUpgrade :=
  match op with
  | OpWithClusterLabelSelectors labels =>
      set_Spec (set_ClusterLabelSelectors [ {| MatchLabels := labels |} ]) obj
  | OpWithSeedImageRef seedImage seedVersion =>
      set_Spec (set_IBUSpec
                  {| ibu_SeedImageRef := {| Image := seedImage; Version := seedVersion |};
                     OADPContent := [] |}) obj
  | OpWithOadpContent name namespace =>
      set_Spec (fun spec =>
                  set_OADPContent
                    (OADPContent (IBUSpec spec)
                       ++ [ {| cm_Name := name; cm_Namespace := namespace |} ]) spec) obj
  | OpWithPlan actions maxConcurrency timeout =>
      set_Spec (fun spec =>
                  set_Plan
                    (Plan spec
                       ++ [ {| Actions := actions;
                               plan_RolloutStrategy :=
                                 {| MaxConcurrency := maxConcurrency;
                                    Timeout := timeout |} |} ]) spec) obj
  | _ => obj
  end.

(** The most requests an operation sends. *)
Definition budget (op : Op) : nat :=
  match op with
  | OpGet | OpExists => 1
  | OpCreate | OpDelete => 2
  | _ => 0
  end.

(** A configuration call on a builder that passes validation. *)
Lemma config_valid (op : Op) (b : IbguBuilder) (d : loc) (c : Client) (s : State) :
  Definition_ b = Some d -> apiClient b = Some c -> errorMsg b = "" ->
  is_config op = true ->
  run op (Some b) s =
    if config_args_ok op then
      Done (Some b) {| heap := <[d := config_effect op (heap s !!! d)]> (heap s);
                       world := world s;
                       requests := requests s |}
    else Done (Some (set_errorMsg (config_message op) b)) s.
Proof.
  intros Hd Hc He Hop. destruct op; try discriminate Hop; simpl.
  - unfold WithClusterLabelSelectors. rewrite (validate_ok b d c Hd Hc He). simpl.
    destruct (size labels =? 0); simpl; [done|].
    unfold bind, deref, ret, modify. simpl. by rewrite Hd.
  - unfold WithSeedImageRef. rewrite (validate_ok b d c Hd Hc He). simpl.
    destruct (String.eqb seedImage ""); simpl; [done|].
    destruct (String.eqb seedVersion ""); simpl; [done|].
    unfold bind, deref, ret, modify. simpl. by rewrite Hd.
  - unfold WithOadpContent. rewrite (validate_ok b d c Hd Hc He). simpl.
    destruct (String.eqb name ""); simpl; [done|].
    destruct (String.eqb namespace ""); simpl; [done|].
    unfold bind, deref, ret, modify. simpl. by rewrite Hd.
  - unfold WithPlan. rewrite (validate_ok b d c Hd Hc He). simpl.
    destruct (List.length actions =? 0); simpl; [done|].
    destruct (maxConcurrency <=? 0)%Z; simpl; [done|].
    destruct (timeout <=? 0)%Z; simpl; [done|].
    unfold bind, deref, ret, modify. simpl. by rewrite Hd.
Qed.

Lemma config_message_nonempty (op : Op) :
  is_config op = true -> config_message op <> "".
Proof.
  destruct op; intros Hop; try discriminate Hop; simpl;
    repeat match goal with |- context [if ?c then _ else _] => destruct c end;
    discriminate.
Qed.

Lemma config_effect_Meta (op : Op) (obj : ImageBasedGroupUpgrade) :
  Meta (config_effect op obj) = Meta obj.
Proof. by destruct op. Qed.

(** What one operation may change, from the receiver and state before to
    those after: the log grows by at most the budget; the heap only
    grows, and below its old end only the definition is written, and that
    not by [Get], [Exists] and [Delete]; a configuration call leaves
    cluster, heap size, [Object] and the metadata of the definition alone;
    no operation reassigns [Definition] or [apiClient], and only
    configuration calls touch the slot. *)
Definition effect (op : Op) (builder builder' : option IbguBuilder) (s s' : State) : Prop :=
  (exists new, requests s' = requests s ++ new /\ List.length new <= budget op) /\
  List.length (heap s) <= List.length (heap s') /\
  (forall l b, builder = Some b -> l < List.length (heap s) -> Definition_ b <> Some l ->
               heap s' !!! l = heap s !!! l) /\
  match op with
  | OpGet | OpExists | OpDelete =>
      forall l, l < List.length (heap s) -> heap s' !!! l = heap s !!! l
  | _ => True
  end /\
  (is_config op = true ->
   world s' = world s /\
   List.length (heap s') = List.length (heap s) /\
   Object <$> builder' = Object <$> builder /\
   forall b d, builder = Some b -> Definition_ b = Some d ->
               Meta (heap s' !!! d) = Meta (heap s !!! d)) /\
  Definition_ <$> builder' = Definition_ <$> builder /\
  apiClient <$> builder' = apiClient <$> builder /\
  (is_config op = false -> errorMsg <$> builder' = errorMsg <$> builder).

Lemma effect_refl (op : Op) (builder : option IbguBuilder) (s : State) :
  effect op builder builder s s.
Proof.
  unfold effect. split; [exists []; split; [by rewrite app_nil_r|simpl; lia]|].
  split; [done|]. split; [done|]. split; [by destruct op|]. by split.
Qed.

Lemma frame_insert (h : list ImageBasedGroupUpgrade) (d l : nat) (v : ImageBasedGroupUpgrade) :
  Some d <> Some l -> <[d := v]> h !!! l = h !!! l.
Proof. intros Hne. apply list_lookup_total_insert_ne. congruence. Qed.

Local Ltac log_grows :=
  first [ exists []; split; [by rewrite app_nil_r|simpl; lia]
        | eexists [_]; split; [reflexivity|simpl; lia]
        | eexists [_; _]; split; [by rewrite <- app_assoc|simpl; lia] ].

Local Ltac effect_goal Hd :=
  unfold effect; simpl; split; [log_grows|];
  split; [rewrite ?length_insert, ?length_app; simpl; lia|];
  split; [intros l b' [= <-] Hl Hne; rewrite Hd in Hne;
          rewrite ?frame_insert by done; by rewrite ?lookup_old by done|];
  split; [try done; intros l Hl; by rewrite ?lookup_old by done|];
  split; [try discriminate|]; repeat split; try done.

(** Every operation returns, with no more effect than [effect] allows. *)
Lemma run_effect (op : Op) (builder : option IbguBuilder) (s : State) :
  exists builder' s', run op builder s = Done builder' s' /\ effect op builder builder' s s'.
Proof.
  destruct (validate builder).1 eqn:Hv.
  2:{ exists builder, s. split; [by apply run_invalid|apply effect_refl]. }
  destruct (validate_true builder Hv) as (b & d & c & -> & Hd & Hc & He & _).
  destruct (is_config op) eqn:Hop.
  - rewrite (config_valid op b d c s Hd Hc He Hop).
    destruct (config_args_ok op); (eexists _, _; split; [reflexivity|]).
    + unfold effect; simpl. split; [log_grows|].
      split; [by rewrite length_insert|].
      split; [intros l b' [= <-] Hl Hne; rewrite Hd in Hne; by rewrite frame_insert|].
      split; [by destruct op|].
      split; [|repeat split; try done; rewrite Hop; discriminate].
      intros _. split; [done|]. split; [by rewrite length_insert|]. split; [done|].
      intros b' d' [= <-] Hd'. rewrite Hd in Hd'. injection Hd' as <-.
      destruct (decide (d < List.length (heap s))) as [Hlt|Hge].
      * by rewrite list_lookup_total_insert_eq, config_effect_Meta.
      * by rewrite list_insert_ge by lia.
    + unfold effect; simpl. split; [log_grows|].
      split; [done|]. split; [done|]. split; [by destruct op|].
      repeat split; try done. rewrite Hop. discriminate.
  - destruct op; try discriminate Hop; simpl; unfold bind.
    + rewrite (Get_valid b d c s Hd Hc He). simpl.
      destruct (client_Get c _ zeroIBGU (world s)) as [[got gerr] w1].
      eexists _, _. split; [reflexivity|]. effect_goal Hd.
    + rewrite (Exists_valid b d c s Hd Hc He). simpl.
      destruct (client_Get c _ zeroIBGU (world s)) as [[got gerr] w1].
      eexists _, _. split; [reflexivity|]. effect_goal Hd.
    + rewrite (Create_valid b d c s Hd Hc He). simpl.
      destruct (client_Get c _ zeroIBGU (world s)) as [[got [e|]] w1];
        [destruct (IsNotFound e);
         [destruct (client_Create c _ w1) as [[after cerr] w2]|]|];
        (eexists _, _; split; [reflexivity|]); effect_goal Hd.
    + rewrite (Delete_valid b d c s Hd Hc He). simpl.
      destruct (client_Get c _ zeroIBGU (world s)) as [[got gerr] w1].
      destruct (match gerr with None => true | Some e => negb (IsNotFound e) end);
        [destruct (client_Delete c _ w1) as [derr w2]|];
        (eexists _, _; split; [reflexivity|]); effect_goal Hd.
Qed.

(** X1.  Every operation returns (as long as the calls of the client do):
    none panics, whatever the receiver (nil included), the answers of the
    client and the state; none reassigns [Definition] or [apiClient]; and
    [Get], [Exists], [Create] and [Delete] leave the deferred-error slot
    as it is. *)
Theorem operations_return_and_keep_pointers
    (op : Op) (builder : option IbguBuilder) (s : State) :
  exists builder' s',
    run op builder s = Done builder' s' /\
    Definition_ <$> builder' = Definition_ <$> builder /\
    apiClient <$> builder' = apiClient <$> builder /\
    (is_config op = false -> errorMsg <$> builder' = errorMsg <$> builder).
Proof.
  destruct (run_effect op builder s)
    as (builder' & s' & Hrun & _ & _ & _ & _ & _ & HD & HC & HE).
  by exists builder', s'.
Qed.

(** X2.  The operations only allocate and write through the definition
    pointer: the heap never shrinks, every other object already on it
    keeps its contents, and [Get], [Exists] and [Delete] do not write the
    definition either. *)
Theorem operations_write_only_the_Definition
    (op : Op) (builder : option IbguBuilder) (s : State) :
  exists builder' s',
    run op builder s = Done builder' s' /\
    List.length (heap s) <= List.length (heap s') /\
    (forall l b, builder = Some b -> l < List.length (heap s) -> Definition_ b <> Some l ->
                 heap s' !!! l = heap s !!! l) /\
    match op with
    | OpGet | OpExists | OpDelete =>
        forall l, l < List.length (heap s) -> heap s' !!! l = heap s !!! l
    | _ => True
    end.
Proof.
  destruct (run_effect op builder s)
    as (builder' & s' & Hrun & _ & Hlen & Hframe & Hro & _).
  by exists builder', s'.
Qed.

(** X3.  The request log only grows, by at most the budget of the
    operation: nothing for a configuration call, one request for [Get]
    and [Exists], two for [Create] and [Delete]; and by nothing at all on
    a builder that fails validation. *)
Theorem operations_request_budget
    (op : Op) (builder : option IbguBuilder) (s : State) :
  exists builder' s' new,
    run op builder s = Done builder' s' /\
    requests s' = requests s ++ new /\
    List.length new <= budget op /\
    ((validate builder).1 = false -> new = []).
Proof.
  destruct (validate builder).1 eqn:Hv.
  - destruct (run_effect op builder s)
      as (builder' & s' & Hrun & (new & Hreq & Hnew) & _).
    by exists builder', s', new.
  - exists builder, s, []. split; [by apply run_invalid|].
    split; [by rewrite app_nil_r|]. split; [simpl; lia|done].
Qed.

Lemma run_all_config_offline (ops : list Op) (builder : option IbguBuilder) (s : State) :
  forallb is_config ops = true ->
  exists builder' s',
    run_all ops builder s = Done builder' s' /\
    world s' = world s /\
    requests s' = requests s /\
    List.length (heap s') = List.length (heap s) /\
    Object <$> builder' = Object <$> builder /\
    Definition_ <$> builder' = Definition_ <$> builder /\
    (forall b d, builder = Some b -> Definition_ b = Some d ->
                 Meta (heap s' !!! d) = Meta (heap s !!! d)).
Proof.
  revert builder s. induction ops as [|op ops IH]; intros builder s Hops.
  - by exists builder, s.
  - simpl in Hops. apply andb_prop in Hops as [Hop Hops].
    destruct (run_effect op builder s)
      as (b1 & s1 & Hrun & (new & Hreq & Hnew) & _ & _ & _ & Hcfg & HD & _).
    destruct (Hcfg Hop) as (Hw & Hlen & HO & HM).
    destruct (IH b1 s1 Hops) as (b2 & s2 & Hall & Hw2 & Hreq2 & Hlen2 & HO2 & HD2 & HM2).
    exists b2, s2. split; [simpl; unfold bind; by rewrite Hrun|].
    assert (new = []) as ->.
    { destruct op; try discriminate Hop; simpl in Hnew; destruct new; simpl in *; done || lia. }
    rewrite app_nil_r in Hreq.
    split; [congruence|]. split; [congruence|]. split; [congruence|].
    split; [congruence|]. split; [congruence|].
    intros b d -> Hd. rewrite <- (HM b d eq_refl Hd).
    destruct b1 as [b1|]; [|discriminate HD]. simpl in HD. injection HD as HD.
    apply (HM2 b1 d eq_refl). congruence.
Qed.

(** X4.  A sequence of configuration calls, on any builder, stays off the
    cluster: it returns, sends no request, leaves the cluster and the
    size of the heap as they were, does not reassign [Object], and does
    not change the metadata (name, namespace, resource version) of the
    definition. *)
Theorem configuration_is_offline
    (ops : list Op) (builder : option IbguBuilder) (s : State) :
  forallb is_config ops = true ->
  exists builder' s',
    run_all ops builder s = Done builder' s' /\
    world s' = world s /\
    requests s' = requests s /\
    List.length (heap s') = List.length (heap s) /\
    Object <$> builder' = Object <$> builder /\
    (forall b d, builder = Some b -> Definition_ b = Some d ->
                 Meta (heap s' !!! d) = Meta (heap s !!! d)).
Proof.
  intros Hops.
  destruct (run_all_config_offline ops builder s Hops)
    as (b' & s' & Hrun & Hw & Hreq & Hlen & HO & _ & HM).
  by exists b', s'.
Qed.

Lemma run_all_slot_set (ops : list Op) (b : IbguBuilder) (s : State) :
  errorMsg b <> "" -> run_all ops (Some b) s = Done (Some b) s.
Proof.
  intros Hslot. induction ops as [|op ops IH]; [done|].
  simpl. unfold bind. by rewrite (errorMsg_stays op b s Hslot).
Qed.

(** X5.  One rejected configuration call disables the builder for good:
    on a builder that passes validation, a configuration call whose
    arguments fail a check records the message of the first failed check,
    changes nothing else, and after it every sequence of operations
    leaves builder and state as they are. *)
Theorem rejected_call_disables_builder
    (op : Op) (ops : list Op) (b : IbguBuilder) (s : State) :
  (validate (Some b)).1 = true ->
  is_config op = true ->
  config_args_ok op = false ->
  run op (Some b) s = Done (Some (set_errorMsg (config_message op) b)) s /\
  config_message op <> "" /\
  run_all ops (Some (set_errorMsg (config_message op) b)) s
    = Done (Some (set_errorMsg (config_message op) b)) s.
Proof.
  intros Hv Hop Hargs.
  destruct (validate_true (Some b) Hv) as (b0 & d & c & [= <-] & Hd & Hc & He & _).
  split.
  - rewrite (config_valid op b d c s Hd Hc He Hop). by rewrite Hargs.
  - split; [by apply config_message_nonempty|].
    apply run_all_slot_set. simpl. by apply config_message_nonempty.
Qed.

(** Configuration calls whose arguments all pass, on a builder that
    passes validation: their effects on the definition, one after the
    other. *)
Lemma run_all_config_valid (ops : list Op) (b : IbguBuilder) (d : loc) (c : Client)
    (s : State) :
  Definition_ b = Some d -> apiClient b = Some c -> errorMsg b = "" ->
  d < List.length (heap s) ->
  forallb is_config ops = true ->
  forallb config_args_ok ops = true ->
  run_all ops (Some b) s =
    Done (Some b)
         {| heap := <[d := fold_left (fun obj op => config_effect op obj) ops (heap s !!! d)]>
                      (heap s);
            world := world s;
            requests := requests s |}.
Proof.
  intros Hd Hc He. revert s. induction ops as [|op ops IH]; intros s Hlt Hcfg Hargs.
  - simpl. rewrite list_insert_id by by apply list_lookup_lookup_total_lt.
    unfold ret. by destruct s.
  - simpl in Hcfg, Hargs.
    apply andb_prop in Hcfg as [Hop Hcfg]. apply andb_prop in Hargs as [Harg Hargs].
    cbn [run_all]. unfold bind. rewrite (config_valid op b d c s Hd Hc He Hop), Harg.
    rewrite IH; [|simpl; by rewrite length_insert|done|done]. simpl.
    by rewrite list_lookup_total_insert_eq, list_insert_insert_eq.
Qed.

Definition OpWithPlan_of (plan : PlanItem) : Op :=
  OpWithPlan (Actions plan) (MaxConcurrency (plan_RolloutStrategy plan))
             (Timeout (plan_RolloutStrategy plan)).

Definition OpWithOadpContent_of (ref : ConfigMapRef) : Op :=
  OpWithOadpContent (cm_Name ref) (cm_Namespace ref).

Lemma fold_WithPlan (plans : list PlanItem) (obj : ImageBasedGroupUpgrade) :
  fold_left (fun obj op => config_effect op obj) (map OpWithPlan_of plans) obj
    = set_Spec (set_Plan (Plan (Spec obj) ++ plans)) obj.
Proof.
  revert obj. induction plans as [|plan plans IH]; intros obj.
  - simpl. rewrite app_nil_r. by destruct obj as [m [? ? ?]].
  - simpl. rewrite IH. unfold set_Spec, set_Plan. simpl.
    rewrite <- app_assoc. by destruct plan as [? [? ?]].
Qed.

Lemma fold_WithOadpContent (refs : list ConfigMapRef) (obj : ImageBasedGroupUpgrade) :
  fold_left (fun obj op => config_effect op obj) (map OpWithOadpContent_of refs) obj
    = set_Spec (fun spec => set_OADPContent (OADPContent (IBUSpec spec) ++ refs) spec) obj.
Proof.
  revert obj. induction refs as [|ref refs IH]; intros obj.
  - destruct obj as [m [[? ?] ? ?]]. unfold set_Spec, set_OADPContent. simpl.
    by rewrite app_nil_r.
  - simpl. rewrite IH. unfold set_Spec, set_OADPContent. simpl.
    rewrite <- app_assoc. by destruct ref.
Qed.

(** X6.  [WithPlan] accumulates: on a builder that passes validation,
    calling it once for each plan of a list (actions non-empty, positive
    concurrency and timeout) appends exactly these plans, in call order,
    to the plans of the definition, and changes nothing else. *)
Theorem WithPlan_accumulates (plans : list PlanItem) (b : IbguBuilder) (d : loc)
    (c : Client) (s : State) :
  Definition_ b = Some d -> apiClient b = Some c -> errorMsg b = "" ->
  d < List.length (heap s) ->
  Forall (fun plan => Actions plan <> [] /\
                      (0 < MaxConcurrency (plan_RolloutStrategy plan))%Z /\
                      (0 < Timeout (plan_RolloutStrategy plan))%Z) plans ->
  run_all (map OpWithPlan_of plans) (Some b) s =
    Done (Some b)
         {| heap := <[d := set_Spec (set_Plan (Plan (Spec (heap s !!! d)) ++ plans))
                                    (heap s !!! d)]> (heap s);
            world := world s;
            requests := requests s |}.
Proof.
  intros Hd Hc He Hlt Hplans.
  rewrite (run_all_config_valid _ b d c s Hd Hc He Hlt).
  - by rewrite fold_WithPlan.
  - clear. induction plans as [|plan plans IH]; [done|]. simpl. exact IH.
  - induction Hplans as [|plan plans (Ha & Hm & Ht) _ IH]; [done|].
    simpl. rewrite IH, andb_true_r.
    destruct (Actions plan); [done|]. simpl.
    by rewrite !(proj2 (Z.leb_gt _ _)) by done.
Qed.

(** X7.  [WithOadpContent] accumulates in the same way: one call for each
    reference of a list (name and namespace non-empty) appends these
    references, in call order, to the OADP content of the definition and
    keeps the seed image reference, the plans and the label selectors. *)
Theorem WithOadpContent_accumulates (refs : list ConfigMapRef) (b : IbguBuilder)
    (d : loc) (c : Client) (s : State) :
  Definition_ b = Some d -> apiClient b = Some c -> errorMsg b = "" ->
  d < List.length (heap s) ->
  Forall (fun ref => cm_Name ref <> "" /\ cm_Namespace ref <> "") refs ->
  run_all (map OpWithOadpContent_of refs) (Some b) s =
    Done (Some b)
         {| heap := <[d := set_Spec
                             (fun spec =>
                                set_OADPContent (OADPContent (IBUSpec spec) ++ refs) spec)
                             (heap s !!! d)]> (heap s);
            world := world s;
            requests := requests s |}.
Proof.
  intros Hd Hc He Hlt Hrefs.
  rewrite (run_all_config_valid _ b d c s Hd Hc He Hlt).
  - by rewrite fold_WithOadpContent.
  - clear. induction refs as [|ref refs IH]; [done|]. simpl. exact IH.
  - induction Hrefs as [|ref refs (Hn & Hns) _ IH]; [done|].
    simpl. rewrite IH, andb_true_r.
    apply String.eqb_neq in Hn, Hns. by rewrite Hn, Hns.
Qed.

(** X8.  [WithSeedImageRef] and [WithOadpContent] do not commute:
    [WithSeedImageRef] assigns a whole new upgrade spec, so OADP content
    added before it is dropped, while content added after it is kept
    beside the seed image reference. *)
Theorem WithSeedImageRef_drops_earlier_OadpContent
    (seedImage seedVersion name namespace : string)
    (b : IbguBuilder) (d : loc) (c : Client) (s : State) :
  Definition_ b = Some d -> apiClient b = Some c -> errorMsg b = "" ->
  d < List.length (heap s) ->
  seedImage <> "" -> seedVersion <> "" -> name <> "" -> namespace <> "" ->
  exists s1 s2,
    run_all [OpWithOadpContent name namespace; OpWithSeedImageRef seedImage seedVersion]
            (Some b) s = Done (Some b) s1 /\
    IBUSpec (Spec (heap s1 !!! d)) =
      {| ibu_SeedImageRef := {| Image := seedImage; Version := seedVersion |};
         OADPContent := [] |} /\
    run_all [OpWithSeedImageRef seedImage seedVersion; OpWithOadpContent name namespace]
            (Some b) s = Done (Some b) s2 /\
    IBUSpec (Spec (heap s2 !!! d)) =
      {| ibu_SeedImageRef := {| Image := seedImage; Version := seedVersion |};
         OADPContent := [ {| cm_Name := name; cm_Namespace := namespace |} ] |}.
Proof.
  intros Hd Hc He Hlt Hi Hv Hn Hns.
  apply String.eqb_neq in Hi, Hv, Hn, Hns.
  eexists _, _. split; [|split; [|split]].
  - apply (run_all_config_valid _ b d c s Hd Hc He Hlt); simpl; [done|].
    by rewrite Hi, Hv, Hn, Hns.
  - simpl. by rewrite list_lookup_total_insert_eq.
  - apply (run_all_config_valid _ b d c s Hd Hc He Hlt); simpl; [done|].
    by rewrite Hi, Hv, Hn, Hns.
  - simpl. by rewrite list_lookup_total_insert_eq.
Qed.

(** X9.  [WithClusterLabelSelectors] replaces: after a call with a
    non-empty label map the definition has exactly one selector, with
    these labels, whatever selectors it had; the rest of the spec and the
    metadata are kept. *)
Theorem WithClusterLabelSelectors_replaces (labels : gmap string string)
    (b : IbguBuilder) (d : loc) (c : Client) (s : State) :
  Definition_ b = Some d -> apiClient b = Some c -> errorMsg b = "" ->
  d < List.length (heap s) ->
  labels <> ∅ ->
  exists s',
    WithClusterLabelSelectors (Some b) labels s = Done (Some b) s' /\
    ClusterLabelSelectors (Spec (heap s' !!! d)) = [ {| MatchLabels := labels |} ] /\
    IBUSpec (Spec (heap s' !!! d)) = IBUSpec (Spec (heap s !!! d)) /\
    Plan (Spec (heap s' !!! d)) = Plan (Spec (heap s !!! d)) /\
    Meta (heap s' !!! d) = Meta (heap s !!! d) /\
    requests s' = requests s.
Proof.
  intros Hd Hc He Hlt Hlabels.
  pose proof (config_valid (OpWithClusterLabelSelectors labels) b d c s Hd Hc He eq_refl)
    as Hrun.
  simpl in Hrun.
  assert ((size labels =? 0) = false) as Hsize.
  { apply Nat.eqb_neq. intros H0. by apply map_size_empty_inv in H0. }
  rewrite Hsize in Hrun. simpl in Hrun.
  eexists. split; [exact Hrun|]. simpl.
  by rewrite list_lookup_total_insert_eq.
Qed.

(** X10.  The identity of the resource is fixed at construction: after
    [NewIbguBuilder] with settings that attach the scheme, followed by any
    sequence of configuration calls (accepted or rejected), the
    definition carries the name and the namespace given to the
    constructor, [Object] is nil, and nothing was asked of the cluster. *)
Theorem configured_builder_keeps_identity
    (settings : Settings) (name nsname : string) (ops : list Op) (s : State) :
  AttachScheme settings = None ->
  forallb is_config ops = true ->
  exists b d s',
    (builder <- NewIbguBuilder (Some settings) name nsname ;; run_all ops builder) s
      = Done (Some b) s' /\
    Definition_ b = Some d /\
    Name (Meta (heap s' !!! d)) = name /\
    Namespace (Meta (heap s' !!! d)) = nsname /\
    Object b = None /\
    requests s' = requests s /\
    world s' = world s.
Proof.
  intros Hattach Hops.
  set (definition := {| Meta := {| Name := name; Namespace := nsname; ResourceVersion := "" |};
                        Spec := {| IBUSpec := zeroIBUSpec; ClusterLabelSelectors := [];
                                   Plan := [] |} |}).
  set (s0 := {| heap := heap s ++ [definition]; world := world s; requests := requests s |}).
  assert (exists b0, NewIbguBuilder (Some settings) name nsname s = Done (Some b0) s0 /\
                     Definition_ b0 = Some (List.length (heap s)) /\ Object b0 = None)
    as (b0 & Hnew & Hd0 & HO0).
  { unfold NewIbguBuilder. rewrite Hattach. unfold bind, new, heap_new, ret. simpl.
    destruct (String.eqb name ""); [|destruct (String.eqb nsname "")]; by eexists. }
  destruct (run_all_config_offline ops (Some b0) s0 Hops)
    as (b' & s' & Hrun & Hw & Hreq & _ & HO & HD & HM).
  destruct b' as [b'|]; [|discriminate HD].
  simpl in HO, HD. injection HO as HO. injection HD as HD.
  exists b', (List.length (heap s)), s'.
  split; [unfold bind; by rewrite Hnew|].
  split; [congruence|].
  rewrite (HM b0 _ eq_refl Hd0). unfold s0. simpl. rewrite lookup_fresh.
  repeat split; try done. congruence.
Qed.

(** X11.  [Create] hides a failed lookup: when the lookup of a builder
    that passes validation fails with an error that is not not-found,
    [Create] sends no create request and returns a nil error, with
    [Object] nil. *)
Theorem Create_hides_lookup_failure
    (b : IbguBuilder) (d : loc) (c : Client) (s : State)
    (got : ImageBasedGroupUpgrade) (e : error) (w1 : W) :
  Definition_ b = Some d -> apiClient b = Some c -> errorMsg b = "" ->
  client_Get c (key_of (heap s !!! d)) zeroIBGU (world s) = (got, Some e, w1) ->
  IsNotFound e = false ->
  Create (Some b) s =
    Done (Some (set_Object None b), None)
         {| heap := heap s ++ [got];
            world := w1;
            requests := requests s ++ [ReqGet (key_of (heap s !!! d)) (List.length (heap s))
                                              got (Some e)] |}.
Proof.
  intros Hd Hc He Hget Hnf.
  rewrite (Create_valid b d c s Hd Hc He). simpl. by rewrite Hget, Hnf.
Qed.

(** X12.  A refused create request is returned as it is and never
    retried: when the lookup says not-found and the create request fails,
    [Create] returns that error after these two requests, with [Object]
    nil and the definition holding what the client left in it. *)
Theorem Create_returns_request_failure
    (b : IbguBuilder) (d : loc) (c : Client) (s : State)
    (got after : ImageBasedGroupUpgrade) (e ce : error) (w1 w2 : W) :
  Definition_ b = Some d -> apiClient b = Some c -> errorMsg b = "" ->
  d < List.length (heap s) ->
  client_Get c (key_of (heap s !!! d)) zeroIBGU (world s) = (got, Some e, w1) ->
  IsNotFound e = true ->
  client_Create c (heap s !!! d) w1 = (after, Some ce, w2) ->
  Create (Some b) s =
    Done (Some (set_Object None b), Some ce)
         {| heap := <[d := after]> (heap s ++ [got]);
            world := w2;
            requests := requests s
              ++ [ReqGet (key_of (heap s !!! d)) (List.length (heap s)) got (Some e);
                  ReqCreate d (heap s !!! d) after (Some ce)] |}.
Proof.
  intros Hd Hc He Hlt Hget Hnf Hcreate.
  rewrite (Create_valid b d c s Hd Hc He). simpl. rewrite Hget, Hnf.
  rewrite (lookup_old _ _ _ Hlt), Hcreate. by rewrite <- app_assoc.
Qed.

Lemma run_all_invalid (ops : list Op) (builder : option IbguBuilder) (s : State) :
  (validate builder).1 = false -> run_all ops builder s = Done builder s.
Proof.
  intros Hv. induction ops as [|op ops IH]; [done|].
  simpl. unfold bind. by rewrite (run_invalid op builder s Hv).
Qed.

(** X19.  A builder that fails validation for any reason (a nil receiver,
    a nil definition, a nil client, or a message in the slot) is inert and
    safe to call: [validate] gives an error, [Get], [Create] and [Delete]
    return that error, [Exists] returns false, and any sequence of
    operations returns with the builder and the state as they were. *)
Theorem failed_validation_is_inert (ops : list Op) (builder : option IbguBuilder) (s : State) :
  (validate builder).1 = false ->
  exists e,
    (validate builder).2 = Some e /\
    run_all ops builder s = Done builder s /\
    Get builder s = Done (None, Some e) s /\
    Exists builder s = Done (false, builder) s /\
    Create builder s = Done (builder, Some e) s /\
    Delete builder s = Done (Some e, builder) s.
Proof.
  intros Hv. destruct (validate_false_err builder Hv) as [e He]. exists e.
  split; [exact He|]. split; [by apply run_all_invalid|].
  unfold Get, Exists, Create, Delete.
  destruct (validate builder) as [valid err]. simpl in Hv, He. subst valid err.
  by repeat split.
Qed.

(** What one request of [Exists], [Create] or [Delete] makes of
    [Object]: a lookup stores its result, the fetched object or nil; a
    create request that succeeds stores the definition pointer; a delete
    request that succeeds stores nil; a failed create or delete request
    leaves it. *)
Definition tracked (acc : option loc) (r : Request) : option loc :=
  match r with
  | ReqGet _ into _ None => Some into
  | ReqGet _ _ _ (Some _) => None
  | ReqCreate obj _ _ None => Some obj
  | ReqDelete _ None => None
  | ReqCreate _ _ _ (Some _) | ReqDelete _ (Some _) => acc
  end.

Definition Object_tracks (kept : list Request) (builder : option IbguBuilder) : Prop :=
  forall b, builder = Some b -> Object b = fold_left tracked kept None.

Lemma run_preserves_Object_tracks (kept : list Request) (op : Op)
    (builder : option IbguBuilder) (s : State) :
  Object_tracks kept builder ->
  exists builder' s',
    run op builder s = Done builder' s' /\
    Object_tracks (kept ++ (if keeps op then added s s' else [])) builder'.
Proof.
  intros Hinv.
  destruct (validate builder).1 eqn:Hv.
  2:{ exists builder, s. split; [by apply run_invalid|].
      rewrite added_refl. by destruct (keeps op); rewrite app_nil_r. }
  destruct (validate_true builder Hv) as (b & d & c & -> & Hd & Hc & He & Hvalid).
  specialize (Hinv b eq_refl).
  destruct (is_config op) eqn:Hop.
  - rewrite (config_valid op b d c s Hd Hc He Hop).
    destruct (config_args_ok op); (eexists _, _; split; [reflexivity|]);
      unfold added; cbn [requests]; rewrite drop_all;
      destruct (keeps op); rewrite app_nil_r; intros ? [= <-]; exact Hinv.
  - destruct op; try discriminate Hop; simpl; unfold bind.
    + rewrite (Get_valid b d c s Hd Hc He). simpl.
      destruct (client_Get c _ zeroIBGU (world s)) as [[got gerr] w1].
      eexists _, _. split; [reflexivity|]. rewrite app_nil_r. by intros ? [= <-].
    + rewrite (Exists_valid b d c s Hd Hc He). simpl.
      destruct (client_Get c _ zeroIBGU (world s)) as [[got [e|]] w1];
        (eexists _, _; split; [reflexivity|]); log_added;
        intros ? [= <-]; by rewrite fold_left_app.
    + rewrite (Create_valid b d c s Hd Hc He). simpl.
      destruct (client_Get c _ zeroIBGU (world s)) as [[got [e|]] w1];
        [destruct (IsNotFound e);
         [destruct (client_Create c _ w1) as [[after [ce|]] w2]|]|];
        (eexists _, _; split; [reflexivity|]); log_added;
        intros ? [= <-]; by rewrite fold_left_app.
    + rewrite (Delete_valid b d c s Hd Hc He). simpl.
      destruct (client_Get c _ zeroIBGU (world s)) as [[got [e|]] w1]; simpl;
        [destruct (IsNotFound e); simpl|];
        try destruct (client_Delete c _ w1) as [[de|] w2];
        (eexists _, _; split; [reflexivity|]); log_added;
        intros ? [= <-]; by rewrite fold_left_app.
Qed.

Lemma run_all_preserves_Object_tracks (kept : list Request)
    (ops : list Op) (builder : option IbguBuilder) (s : State) :
  Object_tracks kept builder ->
  exists builder' s',
    run_all ops builder s = Done builder' s' /\
    Object_tracks (kept ++ kept_requests ops builder s) builder'.
Proof.
  revert kept builder s. induction ops as [|op ops IH]; intros kept builder s Hinv.
  - exists builder, s. split; [done|]. simpl. by rewrite app_nil_r.
  - destruct (run_preserves_Object_tracks kept op builder s Hinv)
      as (b1 & s1 & Hrun & Hinv1).
    destruct (IH _ b1 s1 Hinv1) as (b2 & s2 & Hall & Hinv2).
    exists b2, s2. split; [simpl; unfold bind; by rewrite Hrun|].
    simpl. rewrite Hrun. by rewrite app_assoc.
Qed.

(** X21.  Which object [Object] points to, and whether it is nil, is
    decided by the requests that [Exists], [Create] and [Delete] have
    made since construction, and by nothing else: by the last lookup (the
    object it filled in, or nil when it failed), unless a create request
    has succeeded since (the definition pointer) or a delete request has
    (nil).  Configuration calls and a direct [Get] never change it. *)
Theorem Object_tracks_kept_requests
    (apiClient : option Settings) (name nsname : string) (ops : list Op) (s : State) :
  exists builder0 s0 builder s',
    NewIbguBuilder apiClient name nsname s = Done builder0 s0 /\
    run_all ops builder0 s0 = Done builder s' /\
    forall b, builder = Some b ->
              Object b = fold_left tracked (kept_requests ops builder0 s0) None.
Proof.
  assert (exists b0 s0, NewIbguBuilder apiClient name nsname s = Done b0 s0 /\
                        Object_tracks [] b0) as (b0 & s0 & Hnew & Hinv0).
  { unfold NewIbguBuilder. destruct apiClient as [settings|]; [|by exists None, s].
    destruct (AttachScheme settings); [by exists None, s|].
    unfold bind, new, heap_new, ret. simpl.
    destruct (String.eqb name ""); [|destruct (String.eqb nsname "")];
      (eexists (Some _), _; split; [reflexivity|]); by intros ? [= <-]. }
  destruct (run_all_preserves_Object_tracks [] ops b0 s0 Hinv0)
    as (b1 & s1 & Hall & Hinv1).
  by exists b0, s0, b1, s1.
Qed.

End Builder.

(** *** Concrete clusters *)

(** A stand-in for [msg.UndefinedCrdObjectErrString]. *)
Definition errString (crd : string) : string := "can not redefine the undefined " +:+ crd.

(** An in-memory cluster: the stored resources by namespace and name. *)
Definition notFound : error := StatusError StatusReasonNotFound "not found".
Definition forbidden : error := StatusError (StatusReasonOther "Forbidden") "forbidden".
Definition unavailable : error :=
  StatusError (StatusReasonOther "ServiceUnavailable") "the server is currently unable".

Definition stored_key (obj : ImageBasedGroupUpgrade) : string * string :=
  (Namespace (Meta obj), Name (Meta obj)).

Definition with_ResourceVersion (v : string) (obj : ImageBasedGroupUpgrade)
    : ImageBasedGroupUpgrade :=
  {| Meta := {| Name := Name (Meta obj); Namespace := Namespace (Meta obj);
                ResourceVersion := v |};
     Spec := Spec obj |}.

Definition memGet (key : ObjectKey) (obj : ImageBasedGroupUpgrade)
    (w : gmap (string * string) ImageBasedGroupUpgrade) :=
  match w !! (key_Namespace key, key_Name key) with
  | Some found => (found, @None error, w)
  | None => (obj, Some notFound, w)
  end.

Definition memCreate (obj : ImageBasedGroupUpgrade)
    (w : gmap (string * string) ImageBasedGroupUpgrade) :=
  match w !! stored_key obj with
  | Some _ => (obj, Some (StatusError (StatusReasonOther "AlreadyExists") "exists"), w)
  | None => let created := with_ResourceVersion "1" obj in
            (created, @None error, <[stored_key obj := created]> w)
  end.

Definition memDelete (obj : option ImageBasedGroupUpgrade)
    (w : gmap (string * string) ImageBasedGroupUpgrade) :=
  match obj with
  | None => (Some (Errorf "nil object" []), w)
  | Some o =>
      match w !! stored_key o with
      | Some _ => (@None error, delete (stored_key o) w)
      | None => (Some notFound, w)
      end
  end.

(** A client with full access to the in-memory cluster. *)
Definition memClient : Client :=
  {| client_Get := memGet; client_Create := memCreate; client_Delete := memDelete |}.

(** A client that may read and is refused every write. *)
Definition readOnlyClient : @Client (gmap (string * string) ImageBasedGroupUpgrade) :=
  {| client_Get := memGet;
     client_Create := fun obj w => (obj, Some forbidden, w);
     client_Delete := fun _ w => (Some forbidden, w) |}.

(** A client whose server does not answer. *)
Definition downClient : @Client (gmap (string * string) ImageBasedGroupUpgrade) :=
  {| client_Get := fun _ obj w => (obj, Some unavailable, w);
     client_Create := fun obj w => (obj, Some unavailable, w);
     client_Delete := fun _ w => (Some unavailable, w) |}.

(** A cluster whose controller rewrites the resource between reads: the
    world is the list of resource versions that the coming reads see. *)
Definition liveClient : @Client (list string) :=
  {| client_Get := fun key obj w =>
       match w with
       | v :: w' => ({| Meta := {| Name := key_Name key; Namespace := key_Namespace key;
                                   ResourceVersion := v |};
                        Spec := Spec obj |}, None, w')
       | [] => (obj, Some notFound, [])
       end;
     client_Create := fun obj w => (obj, Some forbidden, w);
     client_Delete := fun _ w => (Some forbidden, w) |}.

Definition emptyCluster : @State (gmap (string * string) ImageBasedGroupUpgrade) :=
  {| heap := []; world := ∅; requests := [] |}.

Definition memSettings : @Settings (gmap (string * string) ImageBasedGroupUpgrade) :=
  {| settings_Client := Some memClient; AttachScheme := None |}.

Definition noClientSettings : @Settings (gmap (string * string) ImageBasedGroupUpgrade) :=
  {| settings_Client := None; AttachScheme := None |}.

(** The definition [NewIbguBuilder] allocates for a name and a namespace. *)
Definition definition_of (name nsname : string) : ImageBasedGroupUpgrade :=
  {| Meta := {| Name := name; Namespace := nsname; ResourceVersion := "" |};
     Spec := {| IBUSpec := zeroIBUSpec; ClusterLabelSelectors := []; Plan := [] |} |}.

(** The resource [ns/x] as the in-memory cluster stores it. *)
Definition stored_x : ImageBasedGroupUpgrade :=
  with_ResourceVersion "1" (definition_of "x" "ns").

(** A cluster that holds [ns/x], and a heap with the definition of a
    builder for it. *)
Definition populatedCluster : @State (gmap (string * string) ImageBasedGroupUpgrade) :=
  {| heap := [definition_of "x" "ns"];
     world := {[ ("ns", "x") := stored_x ]};
     requests := [] |}.

Definition builder_x (c : @Client (gmap (string * string) ImageBasedGroupUpgrade))
    : IbguBuilder :=
  {| Definition_ := Some 0; Object := None; apiClient := Some c; errorMsg := "" |}.

(** The builder [NewIbguBuilder] makes for an empty name. *)
Definition namelessBuilder (c : option (@Client (gmap (string * string) ImageBasedGroupUpgrade)))
    : IbguBuilder :=
  {| Definition_ := Some 0; Object := None; apiClient := c;
     errorMsg := "ibgu 'name' cannot be empty" |}.

Definition namelessState : @State (gmap (string * string) ImageBasedGroupUpgrade) :=
  {| heap := [definition_of "" "ns"]; world := ∅; requests := [] |}.

Example NewIbguBuilder_nameless :
  NewIbguBuilder (Some memSettings) "" "ns" emptyCluster
    = Done (Some (namelessBuilder (Some memClient))) namelessState.
Proof. reflexivity. Qed.

Example NewIbguBuilder_x :
  NewIbguBuilder (Some memSettings) "x" "ns" emptyCluster
    = Done (Some (builder_x memClient))
           {| heap := [definition_of "x" "ns"]; world := ∅; requests := [] |}.
Proof. reflexivity. Qed.

(** C2, the theorem at a builder made with an empty name: [Get] returns
    the error of the slot and [WithPlan] changes nothing. *)
Lemma deferred_error_short_circuits_witness :
  Get errString (Some (namelessBuilder (Some memClient))) namelessState
    = Done (None, Some (Errorf "ibgu 'name' cannot be empty" [])) namelessState /\
  WithPlan errString (Some (namelessBuilder (Some memClient))) ["Prep"] 1 10 namelessState
    = Done (Some (namelessBuilder (Some memClient))) namelessState.
Proof.
  destruct (deferred_error_short_circuits errString
              (namelessBuilder (Some memClient)) namelessState)
    as (err & _ & Herr & _ & _ & _ & HPlan & HGet & _).
  - discriminate.
  - rewrite (Herr ltac:(discriminate) ltac:(discriminate)) in HGet.
    split; [exact HGet|apply HPlan].
Defined.

(** C2 as stated fails: a builder made with an empty name from settings
    that carry no client has its slot set, and [Get] returns the nil-client
    error, which is not the error built from the slot. *)
Lemma nil_client_error_precedes_slot :
  NewIbguBuilder (Some noClientSettings) "" "ns" emptyCluster
    = Done (Some (namelessBuilder None)) namelessState /\
  errorMsg (namelessBuilder None) = "ibgu 'name' cannot be empty" /\
  Get errString (Some (namelessBuilder None)) namelessState
    = Done (None, Some (Errorf "%s builder cannot have nil apiClient" ["ibgu"])) namelessState /\
  Errorf "%s builder cannot have nil apiClient" ["ibgu"]
    <> Errorf (errorMsg (namelessBuilder None)) [].
Proof. repeat split; discriminate. Qed.

(** The same with a nil definition, which the exported field allows a
    caller to assign: the error is that of the undefined object. *)
Example nil_Definition_error_precedes_slot :
  Get errString
      (Some {| Definition_ := None; Object := None; apiClient := Some memClient;
               errorMsg := "seedImage cannot be empty" |}) emptyCluster
    = Done (None, Some (Errorf "can not redefine the undefined ibgu" [])) emptyCluster.
Proof. reflexivity. Qed.

(** [Exists] on the three kinds of answer: found, not found, and a
    failure that is not not-found, where it returns true with [Object]
    nil. *)
Example Exists_found :
  Exists errString (Some (builder_x memClient)) populatedCluster
    = Done (true, Some (set_Object (Some 1) (builder_x memClient)))
           {| heap := [definition_of "x" "ns"; stored_x];
              world := {[ ("ns", "x") := stored_x ]};
              requests := [ReqGet {| key_Name := "x"; key_Namespace := "ns" |} 1 stored_x None] |}.
Proof. reflexivity. Qed.

Example Exists_not_found :
  Exists errString (Some (builder_x memClient))
         {| heap := [definition_of "x" "ns"]; world := ∅; requests := [] |}
    = Done (false, Some (builder_x memClient))
           {| heap := [definition_of "x" "ns"; zeroIBGU];
              world := ∅;
              requests := [ReqGet {| key_Name := "x"; key_Namespace := "ns" |} 1 zeroIBGU
                                  (Some notFound)] |}.
Proof. reflexivity. Qed.

Example Exists_unavailable :
  Exists errString (Some (builder_x downClient)) populatedCluster
    = Done (true, Some (builder_x downClient))
           {| heap := [definition_of "x" "ns"; zeroIBGU];
              world := {[ ("ns", "x") := stored_x ]};
              requests := [ReqGet {| key_Name := "x"; key_Namespace := "ns" |} 1 zeroIBGU
                                  (Some unavailable)] |}.
Proof. reflexivity. Qed.

(** [WithPlan] twice: two plan entries, in call order. *)
Example WithPlan_twice :
  (builder <- WithPlan errString (Some (builder_x memClient)) ["Prep"] 1 10 ;;
   WithPlan errString builder ["Upgrade"; "FinalizeUpgrade"] 2 20)
    {| heap := [definition_of "x" "ns"]; world := ∅; requests := [] |}
  = Done (Some (builder_x memClient))
      {| heap := [set_Spec (set_Plan
                    [{| Actions := ["Prep"];
                        plan_RolloutStrategy := {| MaxConcurrency := 1; Timeout := 10 |} |};
                     {| Actions := ["Upgrade"; "FinalizeUpgrade"];
                        plan_RolloutStrategy := {| MaxConcurrency := 2; Timeout := 20 |} |}])
                    (definition_of "x" "ns")];
         world := ∅; requests := [] |}.
Proof. reflexivity. Qed.

(** C3, the theorem on the empty in-memory cluster. *)
Lemma Create_idempotent_by_skip_witness :
  exists s1 s2,
    Create errString (Some (builder_x memClient))
           {| heap := [definition_of "x" "ns"]; world := ∅; requests := [] |}
      = Done (Some (set_Object (Some 0) (builder_x memClient)), None) s1 /\
    Create errString (Some (set_Object (Some 0) (builder_x memClient))) s1
      = Done (Some (set_Object (Some 2) (builder_x memClient)), None) s2 /\
    requests s2 =
      [ReqGet {| key_Name := "x"; key_Namespace := "ns" |} 1 zeroIBGU (Some notFound);
       ReqCreate 0 (definition_of "x" "ns") stored_x None;
       ReqGet {| key_Name := "x"; key_Namespace := "ns" |} 2 stored_x None].
Proof.
  destruct (Create_idempotent_by_skip errString (builder_x memClient) 0 memClient
              {| heap := [definition_of "x" "ns"]; world := ∅; requests := [] |}
              zeroIBGU stored_x stored_x notFound
              ∅ {[ ("ns", "x") := stored_x ]} {[ ("ns", "x") := stored_x ]})
    as (s1 & s2 & H1 & Hr1 & _ & H2 & Hr2);
    [reflexivity|reflexivity|reflexivity|simpl; lia
    |reflexivity|reflexivity|reflexivity|reflexivity|].
  exists s1, s2. split; [exact H1|]. split; [exact H2|].
  rewrite Hr2, Hr1. reflexivity.
Defined.

(** C4, the theorem on a cluster that holds the resource: the delete
    request goes out against the fetched object and [Object] ends nil. *)
Lemma Delete_spec_witness :
  Delete errString (Some (builder_x memClient)) populatedCluster
    = Done (None, Some (set_Object None (builder_x memClient)))
           {| heap := [definition_of "x" "ns"; stored_x];
              world := ∅;
              requests := [ReqGet {| key_Name := "x"; key_Namespace := "ns" |} 1 stored_x None;
                           ReqDelete (Some 1) None] |}.
Proof.
  exact (Delete_spec errString (builder_x memClient) 0 memClient populatedCluster
           stored_x None {[ ("ns", "x") := stored_x ]}
           eq_refl eq_refl eq_refl eq_refl).
Defined.

(** C4 as stated fails: [Object] is nil before the call; the client
    refuses the delete request, and [Object] is left pointing at the object
    that the existence check fetched. *)
Lemma failed_Delete_overwrites_Object :
  Object (builder_x readOnlyClient) = None /\
  Delete errString (Some (builder_x readOnlyClient)) populatedCluster
    = Done (Some forbidden, Some (set_Object (Some 1) (builder_x readOnlyClient)))
           {| heap := [definition_of "x" "ns"; stored_x];
              world := {[ ("ns", "x") := stored_x ]};
              requests := [ReqGet {| key_Name := "x"; key_Namespace := "ns" |} 1 stored_x None;
                           ReqDelete (Some 1) (Some forbidden)] |}.
Proof. split; reflexivity. Qed.

(** C8, the theorem on a cluster that does not answer. *)
Lemma Delete_passes_nil_Object_witness :
  exists r s',
    Delete errString (Some (builder_x downClient)) populatedCluster = Done r s' /\
    r.1 = Some unavailable /\
    requests s' =
      [ReqGet {| key_Name := "x"; key_Namespace := "ns" |} 1 zeroIBGU (Some unavailable);
       ReqDelete None (Some unavailable)].
Proof.
  destruct (Delete_passes_nil_Object errString (builder_x downClient) 0 downClient
              populatedCluster zeroIBGU unavailable {[ ("ns", "x") := stored_x ]})
    as (r & s' & derr & w2 & HD & Hdel & Hr & _ & Hreq);
    [reflexivity|reflexivity|reflexivity|reflexivity|reflexivity|].
  exists r, s'. split; [exact HD|]. injection Hdel as <- _.
  split; [exact Hr|exact Hreq].
Defined.

Definition liveSettings : @Settings (list string) :=
  {| settings_Client := Some liveClient; AttachScheme := None |}.


(** Two lookups by [Exists] on the cluster that changes between reads:
    [Object] shows the later one. *)
Example Exists_twice_shows_the_later_read :
  exists b s,
    (builder <- NewIbguBuilder (Some liveSettings) "x" "ns" ;;
     run_all errString [OpExists; OpExists] builder)
      {| heap := []; world := ["7"; "8"]; requests := [] |} = Done (Some b) s /\
    Object b = Some 2 /\
    ResourceVersion (Meta (heap s !!! 2)) = "8".
Proof. eexists _, _. split; [vm_compute; reflexivity|]. by split. Qed.

(** *** The further properties on the concrete clusters *)

(** A heap with the definition of a builder for [ns/x], and a cluster
    that does not hold it. *)
Definition unpopulatedCluster : @State (gmap (string * string) ImageBasedGroupUpgrade) :=
  {| heap := [definition_of "x" "ns"]; world := ∅; requests := [] |}.

Definition plan_prep : PlanItem :=
  {| Actions := ["Prep"];
     plan_RolloutStrategy := {| MaxConcurrency := 1; Timeout := 10 |} |}.

Definition plan_upgrade : PlanItem :=
  {| Actions := ["Upgrade"; "FinalizeUpgrade"];
     plan_RolloutStrategy := {| MaxConcurrency := 2; Timeout := 30 |} |}.

Definition oadp_a : ConfigMapRef := {| cm_Name := "a"; cm_Namespace := "openshift-adp" |}.
Definition oadp_b : ConfigMapRef := {| cm_Name := "b"; cm_Namespace := "openshift-adp" |}.

(** X4, at a valid plan followed by a rejected seed image. *)
Lemma configuration_is_offline_witness :
  exists builder' s',
    run_all errString [OpWithPlan ["Prep"] 1 10; OpWithSeedImageRef "" "4.16"]
            (Some (builder_x memClient)) populatedCluster = Done builder' s' /\
    world s' = world populatedCluster /\
    requests s' = [] /\
    Object <$> builder' = Some None.
Proof.
  destruct (configuration_is_offline errString
              [OpWithPlan ["Prep"] 1 10; OpWithSeedImageRef "" "4.16"]
              (Some (builder_x memClient)) populatedCluster eq_refl)
    as (builder' & s' & Hrun & Hw & Hreq & _ & HO & _).
  exists builder', s'. split; [exact Hrun|]. split; [exact Hw|]. split; [exact Hreq|exact HO].
Defined.

(** X5, at a plan without actions: [Create] and a valid [WithPlan] after
    it do nothing. *)
Lemma rejected_call_disables_builder_witness :
  run errString (OpWithPlan [] 1 10) (Some (builder_x memClient)) unpopulatedCluster
    = Done (Some (set_errorMsg (config_message (OpWithPlan [] 1 10)) (builder_x memClient)))
           unpopulatedCluster /\
  config_message (OpWithPlan [] 1 10) <> "" /\
  run_all errString [OpCreate; OpWithPlan ["Prep"] 1 10]
          (Some (set_errorMsg (config_message (OpWithPlan [] 1 10)) (builder_x memClient)))
          unpopulatedCluster
    = Done (Some (set_errorMsg (config_message (OpWithPlan [] 1 10)) (builder_x memClient)))
           unpopulatedCluster.
Proof.
  exact (rejected_call_disables_builder errString (OpWithPlan [] 1 10)
           [OpCreate; OpWithPlan ["Prep"] 1 10] (builder_x memClient) unpopulatedCluster
           eq_refl eq_refl eq_refl).
Defined.

(** X6, at two plans. *)
Lemma WithPlan_accumulates_witness :
  run_all errString (map OpWithPlan_of [plan_prep; plan_upgrade])
          (Some (builder_x memClient)) unpopulatedCluster
    = Done (Some (builder_x memClient))
           {| heap := [set_Spec (set_Plan [plan_prep; plan_upgrade]) (definition_of "x" "ns")];
              world := ∅;
              requests := [] |}.
Proof.
  refine (WithPlan_accumulates errString [plan_prep; plan_upgrade] (builder_x memClient) 0
            memClient unpopulatedCluster eq_refl eq_refl eq_refl _ _).
  - simpl. lia.
  - repeat constructor; simpl; discriminate.
Defined.

(** X7, at two references. *)
Lemma WithOadpContent_accumulates_witness :
  run_all errString (map OpWithOadpContent_of [oadp_a; oadp_b])
          (Some (builder_x memClient)) unpopulatedCluster
    = Done (Some (builder_x memClient))
           {| heap := [set_Spec (set_IBUSpec {| ibu_SeedImageRef := {| Image := ""; Version := "" |};
                                               OADPContent := [oadp_a; oadp_b] |})
                                (definition_of "x" "ns")];
              world := ∅;
              requests := [] |}.
Proof.
  refine (WithOadpContent_accumulates errString [oadp_a; oadp_b] (builder_x memClient) 0
            memClient unpopulatedCluster eq_refl eq_refl eq_refl _ _).
  - simpl. lia.
  - repeat constructor; simpl; discriminate.
Defined.

(** X8, at one seed image and one reference. *)
Lemma WithSeedImageRef_drops_earlier_OadpContent_witness :
  exists s1 s2,
    run_all errString [OpWithOadpContent "a" "openshift-adp"; OpWithSeedImageRef "img" "4.16"]
            (Some (builder_x memClient)) unpopulatedCluster
      = Done (Some (builder_x memClient)) s1 /\
    OADPContent (IBUSpec (Spec (heap s1 !!! 0))) = [] /\
    run_all errString [OpWithSeedImageRef "img" "4.16"; OpWithOadpContent "a" "openshift-adp"]
            (Some (builder_x memClient)) unpopulatedCluster
      = Done (Some (builder_x memClient)) s2 /\
    OADPContent (IBUSpec (Spec (heap s2 !!! 0))) = [oadp_a].
Proof.
  destruct (WithSeedImageRef_drops_earlier_OadpContent errString
              "img" "4.16" "a" "openshift-adp" (builder_x memClient) 0 memClient
              unpopulatedCluster eq_refl eq_refl eq_refl)
    as (s1 & s2 & Hrun1 & H1 & Hrun2 & H2);
    [simpl; lia|discriminate|discriminate|discriminate|discriminate|].
  exists s1, s2. split; [exact Hrun1|]. split; [by rewrite H1|].
  split; [exact Hrun2|]. by rewrite H2.
Defined.

(** X9, at a definition that already has a selector. *)
Lemma WithClusterLabelSelectors_replaces_witness :
  exists s',
    WithClusterLabelSelectors errString (Some (builder_x memClient)) {[ "site" := "edge" ]}
        {| heap := [set_Spec (set_ClusterLabelSelectors
                                [ {| MatchLabels := {[ "site" := "core" ]} |} ])
                             (definition_of "x" "ns")];
           world := ∅;
           requests := [] |}
      = Done (Some (builder_x memClient)) s' /\
    ClusterLabelSelectors (Spec (heap s' !!! 0))
      = [ {| MatchLabels := {[ "site" := "edge" ]} |} ].
Proof.
  destruct (WithClusterLabelSelectors_replaces errString {[ "site" := "edge" ]}
              (builder_x memClient) 0 memClient
              {| heap := [set_Spec (set_ClusterLabelSelectors
                                      [ {| MatchLabels := {[ "site" := "core" ]} |} ])
                                   (definition_of "x" "ns")];
                 world := ∅;
                 requests := [] |} eq_refl eq_refl eq_refl)
    as (s' & Hrun & Hsel & _); [simpl; lia|apply map_non_empty_singleton|].
  exists s'. split; [exact Hrun|exact Hsel].
Defined.

(** X10, at a builder for [ns/x] configured with a plan, a rejected
    reference and a seed image. *)
Lemma configured_builder_keeps_identity_witness :
  exists b d s',
    (builder <- NewIbguBuilder (Some memSettings) "x" "ns" ;;
     run_all errString [OpWithPlan ["Prep"] 1 10; OpWithOadpContent "" "openshift-adp";
                        OpWithSeedImageRef "img" "4.16"] builder) emptyCluster
      = Done (Some b) s' /\
    Definition_ b = Some d /\
    Name (Meta (heap s' !!! d)) = "x" /\
    Namespace (Meta (heap s' !!! d)) = "ns" /\
    Object b = None /\
    requests s' = [] /\
    world s' = ∅.
Proof.
  exact (configured_builder_keeps_identity errString memSettings "x" "ns"
           [OpWithPlan ["Prep"] 1 10; OpWithOadpContent "" "openshift-adp";
            OpWithSeedImageRef "img" "4.16"] emptyCluster eq_refl eq_refl).
Defined.

(** X11, at a client whose server does not answer. *)
Lemma Create_hides_lookup_failure_witness :
  Create errString (Some (builder_x downClient)) unpopulatedCluster
    = Done (Some (builder_x downClient), None)
           {| heap := [definition_of "x" "ns"; zeroIBGU];
              world := ∅;
              requests := [ReqGet {| key_Name := "x"; key_Namespace := "ns" |} 1 zeroIBGU
                                  (Some unavailable)] |}.
Proof.
  exact (Create_hides_lookup_failure errString (builder_x downClient) 0 downClient
           unpopulatedCluster zeroIBGU unavailable ∅
           eq_refl eq_refl eq_refl eq_refl eq_refl).
Defined.

(** X12, at a client that may only read. *)
Lemma Create_returns_request_failure_witness :
  Create errString (Some (builder_x readOnlyClient)) unpopulatedCluster
    = Done (Some (builder_x readOnlyClient), Some forbidden)
           {| heap := [definition_of "x" "ns"; zeroIBGU];
              world := ∅;
              requests := [ReqGet {| key_Name := "x"; key_Namespace := "ns" |} 1 zeroIBGU
                                  (Some notFound);
                           ReqCreate 0 (definition_of "x" "ns") (definition_of "x" "ns")
                                     (Some forbidden)] |}.
Proof.
  refine (Create_returns_request_failure errString (builder_x readOnlyClient) 0 readOnlyClient
            unpopulatedCluster zeroIBGU (definition_of "x" "ns") notFound forbidden ∅ ∅
            eq_refl eq_refl eq_refl _ eq_refl eq_refl eq_refl).
  simpl. lia.
Defined.

(** X19, at the nil receiver. *)
Lemma failed_validation_is_inert_witness :
  exists e,
    (validate errString (@None (@IbguBuilder (gmap (string * string) ImageBasedGroupUpgrade)))).2
      = Some e /\
    run_all errString [OpWithPlan ["Prep"] 1 10; OpCreate; OpDelete] None emptyCluster
      = Done None emptyCluster /\
    Get errString None emptyCluster = Done (None, Some e) emptyCluster /\
    Exists errString None emptyCluster = Done (false, None) emptyCluster /\
    Create errString None emptyCluster = Done (None, Some e) emptyCluster /\
    Delete errString None emptyCluster = Done (Some e, None) emptyCluster.
Proof.
  exact (failed_validation_is_inert errString [OpWithPlan ["Prep"] 1 10; OpCreate; OpDelete]
           None emptyCluster eq_refl).
Defined.

End ibgu.

(** ** Package sriovfec: the node configuration builder *)

Module sriovfec.

Section NodeConfig.

(** [clients.Settings] is only stored. *)
Context {Settings : Type}.

Record NodeConfigBuilder : Type := {
  Objects : option loc;
  apiClient : option Settings;
  nodeName : string;
  nsName : string;
  errorMsg : string;
}.

Definition set_errorMsg (v : string) (b : NodeConfigBuilder) : NodeConfigBuilder :=
  {| Objects := Objects b; apiClient := apiClient b; nodeName := nodeName b;
     nsName := nsName b; errorMsg := v |}.

(** [NewNodeConfigBuilder] (nodeconfig.go, 25-49).  Neither check returns:
    the second assignment follows the first. *)
Definition NewNodeConfigBuilder (apiClient : option Settings) (nodeName nsname : string)
    : NodeConfigBuilder :=
  let builder := {| Objects := None;
                    apiClient := apiClient;
                    nodeName := nodeName;
                    nsName := nsname;
                    errorMsg := "" |} in
  let builder :=
    if String.eqb nodeName ""
    then set_errorMsg "SriovFecNodeConfig 'nodeName' is empty" builder
    else builder in
  let builder :=
    if String.eqb nsname ""
    then set_errorMsg "SriovFecNodeConfig 'nsname' is empty" builder
    else builder in
  builder.

(** C7.  [NewNodeConfigBuilder] with both names empty ends with the
    message of the namespace check in the slot: the later failure has
    replaced the earlier one. *)
Theorem NewNodeConfigBuilder_keeps_last_failure (apiClient : option Settings) :
  errorMsg (NewNodeConfigBuilder apiClient "" "") = "SriovFecNodeConfig 'nsname' is empty".
Proof. reflexivity. Qed.

(** The slot of [NewNodeConfigBuilder] in general: the namespace message
    whenever the namespace is empty, else the node name message when the
    node name is empty, else nothing. *)
Lemma NewNodeConfigBuilder_errorMsg (apiClient : option Settings) (nodeName nsname : string) :
  errorMsg (NewNodeConfigBuilder apiClient nodeName nsname) =
    if String.eqb nsname "" then "SriovFecNodeConfig 'nsname' is empty"
    else if String.eqb nodeName "" then "SriovFecNodeConfig 'nodeName' is empty"
    else "".
Proof.
  unfold NewNodeConfigBuilder.
  by destruct (String.eqb nsname ""), (String.eqb nodeName "").
Qed.

(** X13.  [NewNodeConfigBuilder] always returns a builder, also for a nil
    client, which it stores unchecked beside the two names; [Objects] is
    nil; and the slot is empty exactly when both names are given. *)
Theorem NewNodeConfigBuilder_accepts_iff_both_names
    (settings : option Settings) (name nsname : string) :
  apiClient (NewNodeConfigBuilder settings name nsname) = settings /\
  nodeName (NewNodeConfigBuilder settings name nsname) = name /\
  nsName (NewNodeConfigBuilder settings name nsname) = nsname /\
  Objects (NewNodeConfigBuilder settings name nsname) = None /\
  (errorMsg (NewNodeConfigBuilder settings name nsname) = "" <-> name <> "" /\ nsname <> "").
Proof.
  unfold NewNodeConfigBuilder.
  destruct (String.eqb_spec name ""), (String.eqb_spec nsname ""); simpl;
    repeat split; try done; try (by intros [? ?]).
Qed.

End NodeConfig.

End sriovfec.

(** ** Package sriov: listing and cleaning the network node policies *)

Module sriov.

(** [sriovV1.SriovNetworkNodePolicy]: name and namespace of its metadata,
    and one field of its spec to tell policies apart. *)
Record SriovNetworkNodePolicy : Type := {
  Name : string;
  Namespace : string;
  ResourceName : string;
}.

Definition zeroPolicy : SriovNetworkNodePolicy :=
  {| Name := ""; Namespace := ""; ResourceName := "" |}.

#[global] Instance SriovNetworkNodePolicy_inhabited : Inhabited SriovNetworkNodePolicy :=
  populate zeroPolicy.

(** [metaV1.ListOptions]: selectors and pagination token. *)
Record ListOptions : Type := {
  LabelSelector : string;
  FieldSelector : string;
  Continue : string;
}.

Section Policies.

Context {W : Type}.

(** [clients.Settings], as far as the helpers use it:
    [SriovNetworkNodePolicies(nsname).List(ctx, options)], with the items
    of the list it returns and its error. *)
Record Settings : Type := {
  policies_List :
    string -> ListOptions -> W -> (list SriovNetworkNodePolicy * option error) * W;
}.

(** [PolicyBuilder] is declared in policy.go, which is not among the
    source files at hand: the three fields [ListPolicy] fills in. *)
Record PolicyBuilder : Type := {
  apiClient : option Settings;
  Object : option loc;
  Definition_ : option loc;
}.

(** The method [Delete] of [PolicyBuilder], of policy.go as well: taken as
    a parameter.
    From the builder, the heap of policy objects and the cluster it gives
    its error, the builder after the call, and the heap and the cluster it
    leaves. *)
Variable PolicyBuilder_Delete :
  PolicyBuilder -> list SriovNetworkNodePolicy -> W ->
  (option error * PolicyBuilder) * (list SriovNetworkNodePolicy * W).

(** What the helpers asked of their collaborators: a list request, or a
    [Delete] on the policy of a name, with its result. *)
Inductive Event : Type :=
| EvList (nsname : string) (options : ListOptions)
| EvDelete (name : string) (err : option error).

Record State : Type := {
  heap : list SriovNetworkNodePolicy;
  world : W;
  requests : list Event;
}.

Definition new (v : SriovNetworkNodePolicy) : M State loc :=
  fun s => let (l, h) := heap_new v (heap s) in
           Done l {| heap := h; world := world s; requests := requests s |}.

Definition load (l : loc) : M State SriovNetworkNodePolicy :=
  fun s => Done (heap s !!! l) s.

Definition store (l : loc) (v : SriovNetworkNodePolicy) : M State unit :=
  fun s => Done tt {| heap := <[l := v]> (heap s); world := world s;
                      requests := requests s |}.

Definition call_List (c : Settings) (nsname : string) (options : ListOptions)
    : M State (list SriovNetworkNodePolicy * option error) :=
  fun s => let '(r, w) := policies_List c nsname options (world s) in
           Done r {| heap := heap s; world := w;
                     requests := requests s ++ [EvList nsname options] |}.

(** [policy.Delete()], logged under the name the caller has just read
    from [policy.Object]. *)
Definition call_Delete (policy : PolicyBuilder) (name : string)
    : M State (option error * PolicyBuilder) :=
  fun s => let '(r, (h, w)) := PolicyBuilder_Delete policy (heap s) (world s) in
           Done r {| heap := h; world := w;
                     requests := requests s ++ [EvDelete name r.1] |}.

(** The body of the loop of [ListPolicy] (lines 34-42).  [policy] is the
    location of the iteration variable, one for the whole loop;
    [copiedNetworkNodePolicy] is a new object in every round, since its
    address is taken. *)
Fixpoint ListPolicy_loop (apiClient : option Settings) (policy : loc)
    (items : list SriovNetworkNodePolicy) (networkNodePolicyObjects : list PolicyBuilder)
    : M State (list PolicyBuilder) :=
  match items with
  | [] => ret networkNodePolicyObjects
  | item :: items =>
      _ <- store policy item ;;
      v <- load policy ;;
      copiedNetworkNodePolicy <- new v ;;
      let policyBuilder := {| apiClient := apiClient;
                              Object := Some copiedNetworkNodePolicy;
                              Definition_ := Some copiedNetworkNodePolicy |} in
      ListPolicy_loop apiClient policy items (networkNodePolicyObjects ++ [policyBuilder])
  end.

(** [ListPolicy] (lines 13-45).  The nil slice is the empty list. *)
Definition ListPolicy (apiClient : option Settings) (nsname : string)
    (options : ListOptions) : M State (list PolicyBuilder * option error) :=
  if String.eqb nsname "" then
    ret ([], Some (Errorf "failed to list SriovNetworkNodePolicies, 'nsname' parameter is empty" []))
  else
    c <- deref apiClient ;;
    r <- call_List c nsname options ;;
    match r.2 with
    | Some _ => ret ([], r.2)
    | None =>
        policy <- new zeroPolicy ;;
        networkNodePolicyObjects <- ListPolicy_loop apiClient policy r.1 [] ;;
        ret (networkNodePolicyObjects, None)
    end.

(** The loop of [CleanAllNetworkNodePolicies] (lines 65-76).  The
    arguments of the diagnostic line 71 are evaluated, so it dereferences
    [policy.Object] once more after a failed [Delete]. *)
Fixpoint CleanAll_loop (policies : list PolicyBuilder) : M State (option error) :=
  match policies with
  | [] => ret None
  | policy :: policies =>
      object <- deref (Object policy) ;;
      o <- load object ;;
      if negb (String.eqb (Name o) "default") then
        r <- call_Delete policy (Name o) ;;
        match r.1 with
        | Some _ =>
            object <- deref (Object r.2) ;;
            _ <- load object ;;
            ret r.1
        | None => CleanAll_loop policies
        end
      else CleanAll_loop policies
  end.

(** [CleanAllNetworkNodePolicies] (lines 48-79). *)
Definition CleanAllNetworkNodePolicies (apiClient : option Settings)
    (operatornsname : string) (options : ListOptions) : M State (option error) :=
  if String.eqb operatornsname "" then
    ret (Some (Errorf "failed to clean up SriovNetworkNodePolicies, 'operatornsname' parameter is empty" []))
  else
    r <- ListPolicy apiClient operatornsname options ;;
    match r.2 with
    | Some _ => ret r.2
    | None => CleanAll_loop r.1
    end.

(** *** Facts about the model *)

(** The builder wrapped around the copy at [l]. *)
Definition builder_at (apiClient : option Settings) (l : loc) : PolicyBuilder :=
  {| apiClient := apiClient; Object := Some l; Definition_ := Some l |}.

Lemma last_nonempty (x : SriovNetworkNodePolicy) (l : list SriovNetworkNodePolicy)
    (d d' : SriovNetworkNodePolicy) :
  List.last (x :: l) d = List.last (x :: l) d'.
Proof.
  revert x. induction l as [|y l IH]; intros x; [done|].
  change (List.last (y :: l) d = List.last (y :: l) d'). apply IH.
Qed.

(** The loop of [ListPolicy] from any state: one builder per item, each
    around a new object at the end of the heap, and the iteration variable
    left holding the last item. *)
Lemma ListPolicy_loop_spec (apiClient : option Settings) (policy : loc)
    (items : list SriovNetworkNodePolicy) (acc : list PolicyBuilder) (s : State) :
  policy < List.length (heap s) ->
  ListPolicy_loop apiClient policy items acc s =
    Done (acc ++ map (builder_at apiClient) (seq (List.length (heap s)) (List.length items)))
         {| heap := <[policy := List.last items (heap s !!! policy)]> (heap s) ++ items;
            world := world s;
            requests := requests s |}.
Proof.
  revert acc s. induction items as [|item items IH]; intros acc s Hp.
  - simpl. rewrite !app_nil_r, list_insert_id'; [unfold ret; by destruct s|].
    intros _. by apply list_lookup_lookup_total_lt.
  - cbn [ListPolicy_loop]. unfold bind, store, load, new, heap_new. simpl.
    rewrite IH; simpl.
    + rewrite length_app, length_insert. simpl.
      replace (List.length (heap s) + 1) with (S (List.length (heap s))) by lia.
      rewrite <- app_assoc. simpl. f_equal. f_equal.
      rewrite insert_app_l by by rewrite length_insert.
      rewrite list_insert_insert_eq.
      rewrite lookup_total_app_l by by rewrite length_insert.
      rewrite !list_lookup_total_insert_eq by done.
      rewrite <- app_assoc. simpl.
      destruct items as [|item' items]; [done|].
      by rewrite (last_nonempty item' items item (heap s !!! policy)).
    + rewrite length_app, length_insert. lia.
Qed.

(** [ListPolicy] when the namespace is given and the list request
    succeeds.  The iteration variable is the object at the old end of the
    heap; the copies follow it. *)
Lemma ListPolicy_success (c : Settings) (nsname : string) (options : ListOptions)
    (s : State) (items : list SriovNetworkNodePolicy) (w1 : W) :
  String.eqb nsname "" = false ->
  policies_List c nsname options (world s) = (items, None, w1) ->
  ListPolicy (Some c) nsname options s =
    Done (map (builder_at (Some c)) (seq (S (List.length (heap s))) (List.length items)), None)
         {| heap := heap s ++ List.last items zeroPolicy :: items;
            world := w1;
            requests := requests s ++ [EvList nsname options] |}.
Proof.
  intros Hns Hlist. unfold ListPolicy. rewrite Hns.
  unfold bind, deref, ret, call_List, new, heap_new. simpl. rewrite Hlist. simpl.
  rewrite ListPolicy_loop_spec; simpl.
  - rewrite length_app. simpl.
    replace (List.length (heap s) + 1) with (S (List.length (heap s))) by lia.
    rewrite lookup_total_app_r by done. rewrite Nat.sub_diag. simpl.
    rewrite insert_app_r_alt by done. rewrite Nat.sub_diag. simpl.
    by rewrite <- app_assoc.
  - rewrite length_app. simpl. lia.
Qed.

(** *** The claims about the list helpers *)

(** C9.  After a successful [ListPolicy] there is one builder per listed
    item, in order; [Object] and [Definition] of each are non-nil and are
    the same pointer, to an object that holds a copy of the item; the
    pointers of different builders differ; and all of them lie beyond the
    iteration variable, which is the object at the old end of the heap and
    is left holding the last item. *)
Theorem ListPolicy_builders_own_copies (c : Settings) (nsname : string)
    (options : ListOptions) (s : State) (items : list SriovNetworkNodePolicy) (w1 : W) :
  nsname <> "" ->
  policies_List c nsname options (world s) = (items, None, w1) ->
  exists builders s',
    ListPolicy (Some c) nsname options s = Done (builders, None) s' /\
    List.length builders = List.length items /\
    (forall i item,
       items !! i = Some item ->
       exists l,
         builders !! i = Some {| apiClient := Some c; Object := Some l; Definition_ := Some l |} /\
         heap s' !! l = Some item /\
         List.length (heap s) < l) /\
    heap s' !! List.length (heap s) = Some (List.last items zeroPolicy) /\
    NoDup (map Object builders).
Proof.
  intros Hns Hlist. apply String.eqb_neq in Hns.
  eexists _, _. split; [by apply ListPolicy_success|].
  split; [by rewrite length_map, length_seq|]. split; [|split].
  - intros i item Hi. exists (S (List.length (heap s)) + i).
    assert (Hlt : i < List.length items) by by eapply lookup_lt_Some.
    split; [|split; [|lia]].
    + rewrite list_lookup_fmap, lookup_seq_lt by done. reflexivity.
    + simpl. rewrite lookup_app_r by lia.
      replace (S (List.length (heap s) + i) - List.length (heap s)) with (S i) by lia.
      exact Hi.
  - simpl. rewrite lookup_app_r by lia. by rewrite Nat.sub_diag.
  - rewrite map_map. simpl.
    apply (NoDup_fmap_2 Some). apply NoDup_seq.
Qed.

(** [policy] points to an allocated object of the given name. *)
Definition names_policy (s : State) (policy : PolicyBuilder) (name : string) : Prop :=
  exists l, Object policy = Some l /\ l < List.length (heap s) /\ Name (heap s !!! l) = name.

(** *** Further properties of the list helpers *)

(** X14.  [ListPolicy] builds nothing when it fails: it always returns
    (given a client); with an error the slice is nil and the heap is as it
    was; without one there is a builder per listed item.  An empty
    namespace is refused before anything is asked; otherwise exactly one
    list request is sent, and its error is the one returned. *)
Theorem ListPolicy_error_builds_nothing (c : Settings) (nsname : string)
    (options : ListOptions) (s : State) :
  exists builders err s',
    ListPolicy (Some c) nsname options s = Done (builders, err) s' /\
    (is_Some err -> builders = [] /\ heap s' = heap s) /\
    (err = None ->
       List.length builders
         = List.length (policies_List c nsname options (world s)).1.1) /\
    (nsname = "" -> is_Some err /\ s' = s) /\
    (nsname <> "" ->
       err = (policies_List c nsname options (world s)).1.2 /\
       world s' = (policies_List c nsname options (world s)).2 /\
       requests s' = requests s ++ [EvList nsname options]).
Proof.
  destruct (String.eqb_spec nsname "") as [->|Hns].
  - eexists [], _, s. split; [reflexivity|].
    split; [done|]. split; [done|]. split; [by split; [eexists|]|done].
  - apply String.eqb_neq in Hns.
    destruct (policies_List c nsname options (world s)) as [[items [e|]] w1] eqn:Hlist.
    + eexists [], (Some e), _. split.
      { unfold ListPolicy. rewrite Hns.
        unfold bind, deref, ret, call_List. simpl. by rewrite Hlist. }
      simpl. split; [done|]. split; [done|]. split; [|done].
      intros ->. by rewrite String.eqb_refl in Hns.
    + eexists _, None, _. split; [by apply ListPolicy_success|].
      simpl. split; [by intros [? ?]|]. split; [by rewrite length_map, length_seq|].
      split; [|done]. intros ->. by rewrite String.eqb_refl in Hns.
Qed.

(** X15.  Two listings do not share objects: after a successful
    [ListPolicy] followed by a second successful one, the builders of
    each still point to copies of the items of their own listing, no
    builder of the first shares its object with a builder of the second,
    and the objects that were on the heap before are as they were. *)
Theorem ListPolicy_twice_independent (c : Settings) (ns1 ns2 : string)
    (o1 o2 : ListOptions) (s : State)
    (items1 items2 : list SriovNetworkNodePolicy) (w1 w2 : W) :
  ns1 <> "" -> ns2 <> "" ->
  policies_List c ns1 o1 (world s) = (items1, None, w1) ->
  policies_List c ns2 o2 w1 = (items2, None, w2) ->
  exists builders1 builders2 s2,
    (r1 <- ListPolicy (Some c) ns1 o1 ;;
     r2 <- ListPolicy (Some c) ns2 o2 ;;
     ret (r1, r2)) s = Done ((builders1, None), (builders2, None)) s2 /\
    Forall2 (fun b item => exists l, Object b = Some l /\ heap s2 !! l = Some item)
            builders1 items1 /\
    Forall2 (fun b item => exists l, Object b = Some l /\ heap s2 !! l = Some item)
            builders2 items2 /\
    (forall b1 b2, b1 ∈ builders1 -> b2 ∈ builders2 -> Object b1 <> Object b2) /\
    (forall l, l < List.length (heap s) -> heap s2 !! l = heap s !! l).
Proof.
  intros Hns1 Hns2 Hl1 Hl2. apply String.eqb_neq in Hns1, Hns2.
  eexists _, _, _. split.
  { unfold bind at 1. rewrite (ListPolicy_success c ns1 o1 s items1 w1 Hns1 Hl1).
    unfold bind at 1.
    match goal with |- context [ListPolicy (Some c) ns2 o2 ?s1] =>
      rewrite (ListPolicy_success c ns2 o2 s1 items2 w2 Hns2 Hl2)
    end.
    reflexivity. }
  cbn [heap]. rewrite length_app. cbn [List.length].
  set (n := List.length (heap s)).
  set (last1 := List.last items1 zeroPolicy).
  set (last2 := List.last items2 zeroPolicy).
  split; [|split; [|split]].
  - apply Forall2_fmap_l, Forall2_lookup. intros i.
    destruct (items1 !! i) as [item|] eqn:Hi.
    + assert (Hlt : i < List.length items1) by by eapply lookup_lt_Some.
      rewrite lookup_seq_lt by done. constructor.
      exists (S n + i). split; [done|].
      rewrite lookup_app_l by (rewrite length_app; simpl; lia).
      rewrite lookup_app_r by lia.
      match goal with |- (_ :: _) !! ?k = _ => replace k with (S i) by lia end.
      exact Hi.
    + apply lookup_ge_None in Hi. rewrite lookup_seq_ge by done. constructor.
  - apply Forall2_fmap_l, Forall2_lookup. intros i.
    destruct (items2 !! i) as [item|] eqn:Hi.
    + assert (Hlt : i < List.length items2) by by eapply lookup_lt_Some.
      rewrite lookup_seq_lt by done. constructor.
      eexists. split; [reflexivity|].
      rewrite lookup_app_r by (rewrite length_app; simpl; lia).
      rewrite length_app. cbn [List.length].
      match goal with |- (_ :: _) !! ?k = _ => replace k with (S i) by lia end.
      exact Hi.
    + apply lookup_ge_None in Hi. rewrite lookup_seq_ge by done. constructor.
  - intros b1 b2 Hb1 Hb2.
    apply list_elem_of_fmap in Hb1 as (l1 & -> & Hb1).
    apply list_elem_of_fmap in Hb2 as (l2 & -> & Hb2).
    apply elem_of_seq in Hb1, Hb2. simpl. intros [= ->]. lia.
  - intros l Hlt.
    rewrite lookup_app_l by (rewrite length_app; simpl; lia).
    by rewrite lookup_app_l by lia.
Qed.

(** A loop over builders that all point to policies named "default"
    calls no [Delete] and changes nothing. *)
Lemma CleanAll_loop_default (policies : list PolicyBuilder) (s : State) :
  Forall (fun policy => names_policy s policy "default") policies ->
  CleanAll_loop policies s = Done None s.
Proof.
  induction 1 as [|policy policies (l & Hl & _ & Hname) _ IH]; [done|].
  cbn [CleanAll_loop]. unfold bind at 1, deref. rewrite Hl.
  unfold ret at 1, bind at 1, load. rewrite Hname. simpl. exact IH.
Qed.

(** X16.  When the namespace holds no policy, or only policies named
    "default", [CleanAllNetworkNodePolicies] returns nil after its one
    list request and calls no [Delete], whatever [Delete] would do. *)
Theorem CleanAll_keeps_default_policies (c : Settings) (operatornsname : string)
    (options : ListOptions) (s : State) (items : list SriovNetworkNodePolicy) (w1 : W) :
  operatornsname <> "" ->
  policies_List c operatornsname options (world s) = (items, None, w1) ->
  Forall (fun item => Name item = "default") items ->
  exists s',
    CleanAllNetworkNodePolicies (Some c) operatornsname options s = Done None s' /\
    world s' = w1 /\
    requests s' = requests s ++ [EvList operatornsname options].
Proof.
  intros Hns Hlist Hitems. apply String.eqb_neq in Hns.
  exists {| heap := heap s ++ List.last items zeroPolicy :: items;
            world := w1;
            requests := requests s ++ [EvList operatornsname options] |}.
  split; [|split; reflexivity].
  unfold CleanAllNetworkNodePolicies. rewrite Hns. unfold bind.
  rewrite (ListPolicy_success c operatornsname options s items w1 Hns Hlist).
  cbn [fst snd]. apply CleanAll_loop_default.
  apply Forall_fmap, Forall_forall. intros l Hl. apply elem_of_seq in Hl.
  exists l. simpl. split; [done|]. split; [rewrite length_app; simpl; lia|].
  destruct (items !! (l - S (List.length (heap s)))) as [item|] eqn:Hi.
  - rewrite (list_lookup_total_correct _ l item).
    + eapply Forall_lookup_1 in Hitems; [exact Hitems|exact Hi].
    + rewrite lookup_app_r by lia.
      replace (l - List.length (heap s)) with (S (l - S (List.length (heap s)))) by lia.
      exact Hi.
  - apply lookup_ge_None in Hi. lia.
Qed.

(** X17.  The diagnostic after a failed [Delete] reads the name through
    [policy.Object] again: when the first listed policy is not named
    "default" and [Delete] fails on it and has left [Object] nil, the
    error is not returned; [CleanAllNetworkNodePolicies] panics. *)
Theorem CleanAll_panics_when_failed_Delete_clears_Object
    (c : Settings) (operatornsname : string) (options : ListOptions) (s : State)
    (item : SriovNetworkNodePolicy) (items : list SriovNetworkNodePolicy) (w1 w2 : W)
    (e : error) (policy' : PolicyBuilder) (h' : list SriovNetworkNodePolicy) :
  operatornsname <> "" ->
  policies_List c operatornsname options (world s) = (item :: items, None, w1) ->
  Name item <> "default" ->
  PolicyBuilder_Delete (builder_at (Some c) (S (List.length (heap s))))
      (heap s ++ List.last (item :: items) zeroPolicy :: item :: items) w1
    = ((Some e, policy'), (h', w2)) ->
  Object policy' = None ->
  CleanAllNetworkNodePolicies (Some c) operatornsname options s = Panic.
Proof.
  intros Hns Hlist Hname Hdel Hobj.
  apply String.eqb_neq in Hns, Hname.
  unfold CleanAllNetworkNodePolicies. rewrite Hns. unfold bind at 1.
  rewrite (ListPolicy_success c operatornsname options s _ w1 Hns Hlist).
  cbn [fst snd List.length seq map CleanAll_loop].
  unfold bind at 1, deref. cbn [Object builder_at]. unfold ret at 1, bind at 1, load.
  cbn [heap].
  rewrite lookup_total_app_r by lia.
  replace (S (List.length (heap s)) - List.length (heap s)) with 1 by lia.
  change ((List.last (item :: items) zeroPolicy :: item :: items) !!! 1) with item.
  rewrite Hname. cbn [negb].
  unfold bind at 1, call_Delete. cbn [heap world]. rewrite Hdel. cbn [fst snd].
  unfold bind at 1, deref. by rewrite Hobj.
Qed.

(** X18.  The client pointer is not checked: with a namespace given and a
    nil client both helpers panic, while with an empty namespace both
    return their error before they touch the client. *)
Theorem nil_apiClient_panics_unless_namespace_empty
    (nsname : string) (options : ListOptions) (s : State) :
  if String.eqb nsname "" then
    (exists e, ListPolicy None nsname options s = Done ([], Some e) s) /\
    (exists e, CleanAllNetworkNodePolicies None nsname options s = Done (Some e) s)
  else
    ListPolicy None nsname options s = Panic /\
    CleanAllNetworkNodePolicies None nsname options s = Panic.
Proof.
  unfold CleanAllNetworkNodePolicies, ListPolicy.
  destruct (String.eqb nsname ""); [split; by eexists|].
  by split.
Qed.

(** *** The deletions of the cleanup *)

(** What the cleanup needs of [Delete], whose code is not at hand: it may
    allocate, and of the objects already on the heap it writes none but
    those its own builder points to. *)
Hypothesis Delete_frame :
  forall policy h w,
    List.length h <= List.length (PolicyBuilder_Delete policy h w).2.1 /\
    forall l, l < List.length h ->
              Object policy <> Some l -> Definition_ policy <> Some l ->
              (PolicyBuilder_Delete policy h w).2.1 !! l = h !! l.

(** The deletions as the specification words them: [Delete] on each
    builder in turn, each on the heap and the cluster the one before has
    left, until one fails.  The result is the log of the calls, the error
    of the failed call with the builder it left (nil when none failed),
    and the heap and the cluster at the end. *)
Fixpoint delete_each (targets : list (string * PolicyBuilder))
    (h : list SriovNetworkNodePolicy) (w : W)
    : (list Event * option (error * PolicyBuilder)) * (list SriovNetworkNodePolicy * W) :=
  match targets with
  | [] => (([], None), (h, w))
  | (name, policy) :: targets =>
      let '((err, policy'), (h', w')) := PolicyBuilder_Delete policy h w in
      match err with
      | Some e => (([EvDelete name (Some e)], Some (e, policy')), (h', w'))
      | None =>
          let '((evs, r), hw) := delete_each targets h' w' in
          ((EvDelete name None :: evs, r), hw)
      end
  end.

(** The policies to delete: all but those named "default". *)
Definition not_default (target : string * PolicyBuilder) : bool :=
  negb (String.eqb target.1 "default").

(** What the cleanup returns after the deletions: nil when none failed;
    the error of the failed one when that left [Object] non-nil; a panic
    when it left [Object] nil, for the diagnostic reads the name through
    it. *)
Definition after_deletions (s : State)
    (r : (list Event * option (error * PolicyBuilder)) * (list SriovNetworkNodePolicy * W))
    : outcome State (option error) :=
  let s' := {| heap := r.2.1; world := r.2.2; requests := requests s ++ r.1.1 |} in
  match r.1.2 with
  | None => Done None s'
  | Some (e, policy') =>
      match Object policy' with
      | Some _ => Done (Some e) s'
      | None => Panic
      end
  end.

(** The loop over builders around distinct objects of the given names. *)
Lemma CleanAll_loop_delete_each (apiClient : option Settings)
    (locs : list loc) (names : list string) (s : State) :
  NoDup locs ->
  Forall2 (fun l name => l < List.length (heap s) /\ Name (heap s !!! l) = name) locs names ->
  CleanAll_loop (map (builder_at apiClient) locs) s =
    after_deletions s
      (delete_each (List.filter not_default (zip names (map (builder_at apiClient) locs)))
                   (heap s) (world s)).
Proof using Delete_frame.
  intros Hnd HF. revert s HF.
  induction names as [|name names IH] in locs, Hnd |- *; intros s HF.
  - apply Forall2_nil_inv_r in HF as ->. unfold after_deletions. simpl.
    rewrite app_nil_r. unfold ret. by destruct s.
  - apply Forall2_cons_inv_r in HF as (l & locs' & [Hl Hname] & HF & ->).
    apply NoDup_cons in Hnd as [Hnotin Hnd].
    cbn [map CleanAll_loop]. unfold bind at 1, deref. cbn [Object builder_at].
    unfold ret at 1, bind at 1, load. rewrite Hname.
    cbn [zip zip_with List.filter]. unfold not_default at 1. cbn [fst].
    destruct (String.eqb name "default"); cbn [negb].
    { by apply IH. }
    unfold bind at 1, call_Delete. cbn [delete_each].
    pose proof (Delete_frame (builder_at apiClient l) (heap s) (world s)) as [Hlen Hsame].
    destruct (PolicyBuilder_Delete (builder_at apiClient l) (heap s) (world s))
      as [[err policy'] [h' w']]. cbn [fst snd] in *.
    destruct err as [e|].
    + unfold after_deletions. cbn [fst snd].
      unfold bind, deref, ret, load. by destruct (Object policy').
    + rewrite (IH locs' Hnd {| heap := h'; world := w';
                               requests := requests s ++ [EvDelete name None] |}).
      * cbn [heap world].
        destruct (delete_each _ h' w') as [[evs r] hw].
        unfold after_deletions. cbn [fst snd requests]. by rewrite <- app_assoc.
      * cbn [heap]. apply Forall2_same_length_lookup.
        split; [by eapply Forall2_length|]. intros i l' name' Hi Hni.
        destruct (Forall2_lookup_lr _ _ _ _ _ _ HF Hi Hni) as [Hl' Hname'].
        assert (h' !! l' = heap s !! l') as Heq.
        { apply Hsame; [done| |]; simpl; intros [= ->];
            apply Hnotin; by eapply list_elem_of_lookup_2. }
        split; [apply lookup_lt_is_Some; rewrite Heq; by apply lookup_lt_is_Some|].
        rewrite <- Hname'. by rewrite !list_lookup_total_alt, Heq.
Qed.

(** X20.  After a successful list, [CleanAllNetworkNodePolicies] calls
    [Delete] on the builders of the listed policies that are not named
    "default", in list order and on no other, each on the heap and the
    cluster that the call before has left, and stops at the first call
    that fails.  It returns nil when none fails, and the error of the
    failed call when that call has left [Object] non-nil (it panics
    otherwise); the cluster at the end is the one the last call left, and
    the log shows the list request and then one entry per call. *)
Theorem CleanAll_deletes_in_list_order (c : Settings) (operatornsname : string)
    (options : ListOptions) (s : State) (items : list SriovNetworkNodePolicy) (w1 : W) :
  operatornsname <> "" ->
  policies_List c operatornsname options (world s) = (items, None, w1) ->
  exists builders s1,
    ListPolicy (Some c) operatornsname options s = Done (builders, None) s1 /\
    CleanAllNetworkNodePolicies (Some c) operatornsname options s =
      after_deletions s1
        (delete_each (List.filter not_default (zip (map Name items) builders))
                     (heap s1) (world s1)).
Proof using Delete_frame.
  intros Hns Hlist. apply String.eqb_neq in Hns.
  eexists _, _. split; [by apply ListPolicy_success|].
  unfold CleanAllNetworkNodePolicies. rewrite Hns. unfold bind.
  rewrite (ListPolicy_success c operatornsname options s items w1 Hns Hlist).
  cbn [fst snd]. apply CleanAll_loop_delete_each; [apply NoDup_seq|].
  cbn [heap]. apply Forall2_fmap_r, Forall2_lookup. intros i.
  destruct (items !! i) as [item|] eqn:Hi.
  - assert (Hlt : i < List.length items) by by eapply lookup_lt_Some.
    rewrite lookup_seq_lt by done. constructor.
    split; [rewrite length_app; simpl; lia|].
    f_equal. apply list_lookup_total_correct. rewrite lookup_app_r by lia.
    replace (S (List.length (heap s)) + i - List.length (heap s)) with (S i) by lia.
    exact Hi.
  - apply lookup_ge_None in Hi. rewrite lookup_seq_ge by done. constructor.
Qed.

End Policies.

(** *** A concrete cluster: the policies it stores *)

Definition policy_named (name : string) : SriovNetworkNodePolicy :=
  {| Name := name; Namespace := "openshift-sriov-network-operator"; ResourceName := name |}.

Definition listStored (nsname : string) (options : ListOptions)
    (w : list SriovNetworkNodePolicy) :=
  (List.filter (fun p => String.eqb (Namespace p) nsname) w, @None error, w).

Definition storeSettings : @Settings (list SriovNetworkNodePolicy) :=
  {| policies_List := listStored |}.

(** *** [Delete] of [PolicyBuilder] *)

(** The requests a [PolicyBuilder] sends for its own policy: the lookup
    by namespace and name, and the delete request for an object, which
    the type allows to be nil. *)
Record PolicyRequests {W : Type} : Type := {
  policies_Get : string -> string -> W -> (SriovNetworkNodePolicy * option error) * W;
  policies_Delete : option SriovNetworkNodePolicy -> W -> option error * W;
}.

(** Modelled from the spec: the method [Delete] of [PolicyBuilder], with
    the [validate], [Exists] and [Get] it calls, of policy.go, which is
    not among the source files.  The specification (4.1) gives these
    methods for every resource builder, and [IbguBuilder] has them in
    ibgu.go (232-313).  [Delete] validates (definition and client
    non-nil).  Its existence check, [Exists], stores in [Object] the
    result of [Get], which is the fetched object, or nil with the error
    when the lookup fails; it is true when there is no error or the error
    is not not-found.  When the resource does not exist, [Delete] clears
    [Object] and returns nil.  Otherwise it sends a delete request against
    [Object]; when the request succeeds it clears [Object] and returns
    nil; when it fails it returns the error, and [Object] stays what the
    existence check has made it.  The messages of the two validation
    errors are not given; nothing compares them. *)
Definition Delete {W : Type} (reqs : @PolicyRequests W) (policy : @PolicyBuilder W)
    (h : list SriovNetworkNodePolicy) (w : W)
    : (option error * @PolicyBuilder W) * (list SriovNetworkNodePolicy * W) :=
  match Definition_ policy, apiClient policy with
  | None, _ => ((Some (Errorf "undefined SriovNetworkNodePolicy" []), policy), (h, w))
  | Some _, None =>
      ((Some (Errorf "SriovNetworkNodePolicy builder cannot have nil apiClient" []), policy),
       (h, w))
  | Some d, Some _ =>
      let definition := h !!! d in
      let '(got, gerr, w1) := policies_Get reqs (Namespace definition) (Name definition) w in
      let h1 := h ++ [got] in
      let Object1 := match gerr with Some _ => None | None => Some (List.length h) end in
      let with_Object o :=
        {| apiClient := apiClient policy; Object := o; Definition_ := Definition_ policy |} in
      if match gerr with None => true | Some e => negb (IsNotFound e) end then
        let '(derr, w2) := policies_Delete reqs ((fun l => h1 !!! l) <$> Object1) w1 in
        match derr with
        | Some _ => ((derr, with_Object Object1), (h1, w2))
        | None => ((None, with_Object None), (h1, w2))
        end
      else ((None, with_Object None), (h1, w1))
  end.

(** This [Delete] allocates the object of its lookup and writes no
    other. *)
Lemma Delete_allocates_only {W : Type} (reqs : @PolicyRequests W)
    (policy : @PolicyBuilder W) (h : list SriovNetworkNodePolicy) (w : W) :
  List.length h <= List.length (Delete reqs policy h w).2.1 /\
  forall l, l < List.length h ->
            Object policy <> Some l -> Definition_ policy <> Some l ->
            (Delete reqs policy h w).2.1 !! l = h !! l.
Proof.
  unfold Delete.
  destruct (Definition_ policy) as [d|]; [|done].
  destruct (apiClient policy) as [c|]; [|done].
  destruct (policies_Get reqs _ _ w) as [[got gerr] w1].
  assert (List.length h <= List.length (h ++ [got]) /\
          forall l, l < List.length h -> (h ++ [got]) !! l = h !! l) as [Hlen Hsame].
  { split; [rewrite length_app; lia|]. intros l Hl. by apply lookup_app_l. }
  destruct (match gerr with None => true | Some e => negb (IsNotFound e) end).
  - destruct (policies_Delete reqs _ w1) as [[de|] w2]; simpl; split; auto.
  - simpl. split; auto.
Qed.

Definition notFound : error := StatusError StatusReasonNotFound "not found".
Definition forbidden : error := StatusError (StatusReasonOther "Forbidden") "forbidden".

(** Full access to the stored policies, but that it refuses to delete
    those whose name is in [locked]. *)
Definition storeRequests (locked : list string)
    : @PolicyRequests (list SriovNetworkNodePolicy) :=
  {| policies_Get := fun nsname name w =>
       match List.find (fun p => String.eqb (Namespace p) nsname && String.eqb (Name p) name) w
       with
       | Some p => (p, None, w)
       | None => (zeroPolicy, Some notFound, w)
       end;
     policies_Delete := fun obj w =>
       match obj with
       | None => (Some (Errorf "nil object" []), w)
       | Some p =>
           if existsb (String.eqb (Name p)) locked then (Some forbidden, w)
           else (None, List.filter (fun q => negb (String.eqb (Name q) (Name p))) w)
       end |}.


Definition noOptions : ListOptions :=
  {| LabelSelector := ""; FieldSelector := ""; Continue := "" |}.

(** The cluster of the specification's example: "default", "a" and "b". *)
Definition threePolicies : @State (list SriovNetworkNodePolicy) :=
  {| heap := [];
     world := [policy_named "default"; policy_named "a"; policy_named "b"];
     requests := [] |}.

(** The heap after the list request: the iteration variable, left
    holding the last item, and the three copies. *)
Definition listedHeap : list SriovNetworkNodePolicy :=
  [policy_named "b"; policy_named "default"; policy_named "a"; policy_named "b"].

(** The two runs the specification describes.  Each [Delete] allocates
    the object of its lookup. *)
Example CleanAll_deletes_a_and_b :
  CleanAllNetworkNodePolicies (Delete (storeRequests [])) (Some storeSettings)
      "openshift-sriov-network-operator" noOptions threePolicies
    = Done None
        {| heap := listedHeap ++ [policy_named "a"; policy_named "b"];
           world := [policy_named "default"];
           requests := [EvList "openshift-sriov-network-operator" noOptions;
                        EvDelete "a" None; EvDelete "b" None] |}.
Proof. reflexivity. Qed.

Example CleanAll_stops_at_a :
  CleanAllNetworkNodePolicies (Delete (storeRequests ["a"])) (Some storeSettings)
      "openshift-sriov-network-operator" noOptions threePolicies
    = Done (Some forbidden)
        {| heap := listedHeap ++ [policy_named "a"];
           world := [policy_named "default"; policy_named "a"; policy_named "b"];
           requests := [EvList "openshift-sriov-network-operator" noOptions;
                        EvDelete "a" (Some forbidden)] |}.
Proof. reflexivity. Qed.


(** X20, on that cluster, with "a" locked. *)
Lemma CleanAll_deletes_in_list_order_witness :
  exists builders s1,
    ListPolicy (Some storeSettings) "openshift-sriov-network-operator" noOptions threePolicies
      = Done (builders, None) s1 /\
    CleanAllNetworkNodePolicies (Delete (storeRequests ["a"])) (Some storeSettings)
        "openshift-sriov-network-operator" noOptions threePolicies
      = after_deletions s1
          (delete_each (Delete (storeRequests ["a"]))
             (List.filter not_default (zip ["default"; "a"; "b"] builders))
             (heap s1) (world s1)).
Proof.
  refine (CleanAll_deletes_in_list_order (Delete (storeRequests ["a"]))
            (Delete_allocates_only (storeRequests ["a"])) storeSettings
            "openshift-sriov-network-operator" noOptions threePolicies
            [policy_named "default"; policy_named "a"; policy_named "b"]
            [policy_named "default"; policy_named "a"; policy_named "b"] _ eq_refl).
  discriminate.
Defined.

(** C9, the theorem on that cluster. *)
Lemma ListPolicy_builders_own_copies_witness :
  exists builders s',
    ListPolicy (Some storeSettings) "openshift-sriov-network-operator" noOptions threePolicies
      = Done (builders, None) s' /\
    List.length builders = 3 /\
    NoDup (map Object builders).
Proof.
  destruct (ListPolicy_builders_own_copies storeSettings
              "openshift-sriov-network-operator" noOptions threePolicies
              [policy_named "default"; policy_named "a"; policy_named "b"]
              [policy_named "default"; policy_named "a"; policy_named "b"])
    as (builders & s' & Hrun & Hlen & _ & _ & Hnd); [discriminate|reflexivity|].
  exists builders, s'. split; [exact Hrun|]. split; [exact Hlen|exact Hnd].
Defined.

(** *** The further properties on the concrete cluster *)

(** A [Delete] that fails and has dropped [Object] on its way. *)
Definition droppingDelete
    (policy : @PolicyBuilder (list SriovNetworkNodePolicy))
    (h : list SriovNetworkNodePolicy) (w : list SriovNetworkNodePolicy)
    : (option error * @PolicyBuilder (list SriovNetworkNodePolicy))
      * (list SriovNetworkNodePolicy * list SriovNetworkNodePolicy) :=
  ((Some (StatusError (StatusReasonOther "Forbidden") "forbidden"),
    {| apiClient := apiClient policy; Object := None; Definition_ := Definition_ policy |}),
   (h, w)).

Definition onlyDefault : @State (list SriovNetworkNodePolicy) :=
  {| heap := []; world := [policy_named "default"]; requests := [] |}.

Definition policiesA : @State (list SriovNetworkNodePolicy) :=
  {| heap := []; world := [policy_named "a"; policy_named "default"]; requests := [] |}.

(** X15, at two listings of the three policies. *)
Lemma ListPolicy_twice_independent_witness :
  exists builders1 builders2 s2,
    (r1 <- ListPolicy (Some storeSettings) "openshift-sriov-network-operator" noOptions ;;
     r2 <- ListPolicy (Some storeSettings) "openshift-sriov-network-operator" noOptions ;;
     ret (r1, r2)) threePolicies = Done ((builders1, None), (builders2, None)) s2 /\
    List.length builders1 = 3 /\
    List.length builders2 = 3 /\
    (forall b1 b2, b1 ∈ builders1 -> b2 ∈ builders2 -> Object b1 <> Object b2).
Proof.
  destruct (ListPolicy_twice_independent storeSettings
              "openshift-sriov-network-operator" "openshift-sriov-network-operator"
              noOptions noOptions threePolicies
              [policy_named "default"; policy_named "a"; policy_named "b"]
              [policy_named "default"; policy_named "a"; policy_named "b"]
              [policy_named "default"; policy_named "a"; policy_named "b"]
              [policy_named "default"; policy_named "a"; policy_named "b"])
    as (builders1 & builders2 & s2 & Hrun & H1 & H2 & Hdisj & _);
    [discriminate|discriminate|reflexivity|reflexivity|].
  exists builders1, builders2, s2. split; [exact Hrun|].
  split; [exact (Forall2_length _ _ _ H1)|].
  split; [exact (Forall2_length _ _ _ H2)|exact Hdisj].
Defined.

(** X16, at a cluster with the default policy only and a [Delete] that
    would fail. *)
Lemma CleanAll_keeps_default_policies_witness :
  exists s',
    CleanAllNetworkNodePolicies droppingDelete (Some storeSettings)
        "openshift-sriov-network-operator" noOptions onlyDefault = Done None s' /\
    world s' = [policy_named "default"] /\
    requests s' = [EvList "openshift-sriov-network-operator" noOptions].
Proof.
  refine (CleanAll_keeps_default_policies droppingDelete storeSettings
            "openshift-sriov-network-operator" noOptions onlyDefault
            [policy_named "default"] [policy_named "default"] _ eq_refl _).
  - discriminate.
  - repeat constructor.
Defined.

(** X17, at a cluster whose first policy is "a". *)
Lemma CleanAll_panics_when_failed_Delete_clears_Object_witness :
  CleanAllNetworkNodePolicies droppingDelete (Some storeSettings)
      "openshift-sriov-network-operator" noOptions policiesA = Panic.
Proof.
  refine (CleanAll_panics_when_failed_Delete_clears_Object droppingDelete storeSettings
            "openshift-sriov-network-operator" noOptions policiesA
            (policy_named "a") [policy_named "default"]
            [policy_named "a"; policy_named "default"]
            [policy_named "a"; policy_named "default"]
            (StatusError (StatusReasonOther "Forbidden") "forbidden")
            {| apiClient := Some storeSettings; Object := None; Definition_ := Some 1 |}
            [policy_named "default"; policy_named "a"; policy_named "default"]
            _ eq_refl _ eq_refl eq_refl).
  - discriminate.
  - discriminate.
Defined.

End sriov.
